(** * MTProxy tools: a shallow embedding of [analyze_logs.py],
      [monitor.py] and [manage_users.py]

    The development follows the class [MTProxyLogAnalyzer]:
    - [parse_logs] groups the connections found in the log by user name,
    - [analyze_sharing_behavior] derives the per-user figures,
    - [calculate_suspicious_score] turns them into a capped score,
    - [print_analysis] orders the users, labels each with a risk line and
      prints the summary counters;

    the class [MTProxyMonitor] (module [Monitor]): [analyze_user_behavior],
    [get_connection_stats], [print_stats] and the loop of
    [monitor_continuous], given what the queries and the clock return;

    and [add_user] of the user manager (module [ManageUsers]) with
    [read_config] and [write_config], on the configuration file.

    Conventions of the embedding.
    - A [datetime] is the integer number of microseconds since a fixed
      midnight (its resolution in Python); a [timedelta] is a difference of
      two of them and [total_seconds] its value in seconds.
    - Python integers are [Z]; the quotients of [/] are exact rationals [Q]
      (the float Python prints is the rounding of that rational).
    - A [dict] whose iteration order the code relies on is an association
      list in insertion order; a [dict] that is only looked up is a [gmap];
      a [set] is a [gset].
    - Text written by [print] is not modelled: [print_analysis] returns the
      rows and counters it prints. *)

From Stdlib Require Import ZArith QArith Qabs Ascii.
From stdpp Require Import gmap strings list sorting.

Local Open Scope Z_scope.

(** ** Python built-ins used by the analyzer *)

Section Builtins.
Context {A : Type}.

(** [len(l)] *)
Definition len (l : list A) : Z := Z.of_nat (length l).

(** [enumerate(l)] *)
Definition enumerate (l : list A) : list (nat * A) := imap pair l.

(** Insertion of [x] in front of the first element whose key is not
    smaller: elements with equal keys keep their order of arrival. *)
Fixpoint insort (key : A → Z) (x : A) (l : list A) : list A :=
  match l with
  | [] => [x]
  | y :: l' => if key x <=? key y then x :: y :: l' else y :: insort key x l'
  end.

(** Stable ascending sort by [key]. Stability fixes the result, so any
    stable algorithm (Python's included) returns this list. *)
Fixpoint sort_ascending (key : A → Z) (l : list A) : list A :=
  match l with
  | [] => []
  | x :: l' => insort key x (sort_ascending key l')
  end.

(** [sorted(l, key=key, reverse=reverse)]. With [reverse=True] Python
    reverses the list, sorts it and reverses the result, which keeps
    equal keys in their original order. *)
Definition sorted (key : A → Z) (reverse : bool) (l : list A) : list A :=
  if reverse then rev (sort_ascending key (rev l)) else sort_ascending key l.

(** [sum(1 for x in l if cond(x))] *)
Definition sum_ones (cond : A → bool) (l : list A) : Z :=
  foldl (λ acc x, if cond x then acc + 1 else acc) 0 l.
End Builtins.

(** [min(l) if l else None] and [max(l) if l else None] *)
Definition min_or_none (l : list Z) : option Z :=
  match l with
  | [] => None
  | t :: l' => Some (foldl Z.min t l')
  end.

Definition max_or_none (l : list Z) : option Z :=
  match l with
  | [] => None
  | t :: l' => Some (foldl Z.max t l')
  end.

(** [timedelta.total_seconds()] of a difference given in microseconds *)
Definition total_seconds (delta : Z) : Q := delta # 1000000.

(** A number of seconds as a [timedelta] *)
Definition seconds (n : Z) : Z := n * 1000000.

Definition Qlt_bool (x y : Q) : bool := negb (Qle_bool y x).

(** [timestamp.hour] *)
Definition hour (timestamp : Z) : Z := (timestamp / 3600000000) mod 24.

(** ** Insertion-ordered dictionaries *)

Section Dict.
Context {V : Type}.

(** [d.get(k)] *)
Fixpoint dict_get (k : string) (d : list (string * V)) : option V :=
  match d with
  | [] => None
  | (k', v) :: d' => if decide (k = k') then Some v else dict_get k d'
  end.

(** [d[k] = v]: an existing key keeps its position. *)
Fixpoint dict_set (k : string) (v : V) (d : list (string * V)) : list (string * V) :=
  match d with
  | [] => [(k, v)]
  | (k', v') :: d' =>
      if decide (k = k') then (k', v) :: d' else (k', v') :: dict_set k v d'
  end.
End Dict.

(** [d[k].append(x)] on a [defaultdict(list)]: a missing key is created
    at the end with the one-element list. *)
Fixpoint dict_append {X : Type} (k : string) (x : X) (d : list (string * list X))
  : list (string * list X) :=
  match d with
  | [] => [(k, [x])]
  | (k', xs) :: d' =>
      if decide (k = k') then (k', xs ++ [x]) :: d' else (k', xs) :: dict_append k x d'
  end.

(** ** Data *)

(** The dictionary [connection_info] built for each matching line. *)
Record connection_info := {
  timestamp : Z;
  ip : string;
  secret : string;
  username : string;
  raw_log : string
}.

(** A log line as [parse_logs] sees it: [stripped] is [line.strip()] and
    [found] the groups of the first of the four patterns that matches, the
    time stamp already turned into a [datetime] ([strptime], or the clock
    when [strptime] fails). *)
Record log_line := {
  stripped : string;
  found : option (Z * string * string)
}.

(** The attributes of the analyzer object. *)
Record analyzer := {
  user_connections : list (string * list connection_info);
  ip_to_user : gmap string string;
  connection_patterns : gmap string (gmap Z Z)
}.

(** [__init__] *)
Definition init : analyzer :=
  {| user_connections := []; ip_to_user := ∅; connection_patterns := ∅ |}.

(** One entry of the dictionary returned by [analyze_sharing_behavior]. *)
Record analysis := {
  total_connections : Z;
  unique_ips : Z;
  ips : list string;
  simultaneous_different_ips : Z;
  avg_connection_interval : Q;
  suspicious_score : Z;
  first_seen : option Z;
  last_seen : option Z
}.

(** ** [parse_logs] *)

(** [{secret: user for user, secret in user_secrets.items()}] *)
Definition invert (user_secrets : list (string * string)) : gmap string string :=
  foldl (λ m '(user, sec), <[sec := user]> m) ∅ user_secrets.

(** [secret_to_user.get(secret, f"unknown_{secret[:8]}")] *)
Definition resolve (secret_to_user : gmap string string) (sec : string) : string :=
  default ("unknown_" +:+ String.substring 0 8 sec) (secret_to_user !! sec).

Definition connection_of (secret_to_user : gmap string string)
    (line : log_line) (groups : Z * string * string) : connection_info :=
  let '(ts, addr, sec) := groups in
  {| timestamp := ts; ip := addr; secret := sec;
     username := resolve secret_to_user sec; raw_log := stripped line |}.

(** The body of the loop over [log_lines]. *)
Definition parse_line (secret_to_user : gmap string string)
    (self : analyzer) (line : log_line) : analyzer :=
  if decide (stripped line = "") then self
  else match found line with
       | None => self
       | Some groups =>
           let info := connection_of secret_to_user line groups in
           let name := username info in
           let hours := default ∅ (connection_patterns self !! name) in
           let h := hour (timestamp info) in
           {| user_connections := dict_append name info (user_connections self);
              ip_to_user := <[ip info := name]> (ip_to_user self);
              connection_patterns :=
                <[name := <[h := default 0 (hours !! h) + 1]> hours]>
                  (connection_patterns self) |}
       end.

Definition parse_logs (user_secrets : list (string * string))
    (log_lines : list log_line) (self : analyzer) : analyzer :=
  let secret_to_user := invert user_secrets in
  foldl (parse_line secret_to_user) self log_lines.

(** ** [calculate_suspicious_score] *)

(** The value of [score] when the [return] is reached. *)
Definition score_before_cap (unique_ips simultaneous_ips total_connections : Z) : Z :=
  let score := 0 in
  let score := if 1 <? unique_ips then score + unique_ips * 10 else score in
  let score := score + simultaneous_ips * 50 in
  let score :=
    if 20 <? total_connections then score + (total_connections - 20) * 2 else score in
  score.

Definition calculate_suspicious_score (unique_ips simultaneous_ips total_connections : Z) : Z :=
  Z.min (score_before_cap unique_ips simultaneous_ips total_connections) 100.

(** ** [analyze_sharing_behavior] *)

(** The test of the inner loop, with the [time_diff] it computes. A
    [timedelta] is a whole number of microseconds, so rounding
    [total_seconds()] to a float moves it across neither 300 nor 0: the
    comparisons of the code give the results of the exact ones. *)
Definition time_diff (conn1 conn2 : connection_info) : Q :=
  Qabs (total_seconds (timestamp conn1 - timestamp conn2)).

Definition simultaneous (conn1 conn2 : connection_info) : bool :=
  Qlt_bool (time_diff conn1 conn2) 300 && bool_decide (ip conn1 ≠ ip conn2).

(** What the inner loop, run for [conn1] over the slice
    [connections[i+1:]], appends to [simultaneous_ips]. *)
Definition inner_loop (conn1 : connection_info) (slice : list connection_info)
  : list (string * string * Q) :=
  flat_map
    (λ conn2,
       if simultaneous conn1 conn2
       then [(ip conn1, ip conn2, time_diff conn1 conn2)] else [])
    slice.

(** The list [simultaneous_ips] after the two nested loops. *)
Definition simultaneous_ips (connections : list connection_info)
  : list (string * string * Q) :=
  flat_map
    (λ '(i, conn1), inner_loop conn1 (drop (S i) connections))
    (enumerate connections).

(** The value of [avg_interval] for the sorted [connection_times]. *)
Definition avg_interval (connection_times : list Z) : Q :=
  if 1 <? len connection_times then
    match last connection_times, head connection_times with
    | Some newest, Some oldest =>
        let total_time := total_seconds (newest - oldest) in
        if Qlt_bool 0 total_time
        then total_time / inject_Z (len connection_times) else 0
    | _, _ => 0 (* not reached: the list has two elements *)
    end
  else 0.

(** The dictionary stored under [username]. *)
Definition analyze_user (connections : list connection_info) : analysis :=
  let user_ips : gset string := list_to_set (map ip connections) in
  let connection_times := sorted id false (map timestamp connections) in
  let pairs := simultaneous_ips connections in
  {| total_connections := len connections;
     unique_ips := Z.of_nat (size user_ips);
     ips := elements user_ips;
     simultaneous_different_ips := len pairs;
     avg_connection_interval := avg_interval connection_times;
     suspicious_score :=
       calculate_suspicious_score (Z.of_nat (size user_ips)) (len pairs) (len connections);
     first_seen := min_or_none connection_times;
     last_seen := max_or_none connection_times |}.

Definition analyze_sharing_behavior (self : analyzer) : list (string * analysis) :=
  foldl
    (λ sharing_analysis '(name, connections),
       if len connections <? 2 then sharing_analysis
       else dict_set name (analyze_user connections) sharing_analysis)
    [] (user_connections self).

(** ** [print_analysis] *)

(** The risk line printed under a user. *)
Inductive risk := HIGH_RISK | MEDIUM_RISK | LOW_RISK.

Definition risk_line (data : analysis) : risk :=
  if 30 <? suspicious_score data then HIGH_RISK
  else if 10 <? suspicious_score data then MEDIUM_RISK
  else LOW_RISK.

(** The four counters of the summary. *)
Record summary := {
  total_users : Z;
  high_risk : Z;
  medium_risk : Z;
  low_risk : Z
}.

Definition sorted_users (sharing_analysis : list (string * analysis))
  : list (string * analysis) :=
  sorted (λ x, suspicious_score x.2) true sharing_analysis.

(** What [print_analysis] prints: nothing but a notice for an empty
    analysis ([None]), otherwise one block per user in the order of
    [sorted_users], each with its risk line, and the summary. *)
Definition print_analysis (sharing_analysis : list (string * analysis))
  : option (list (string * analysis * risk) * summary) :=
  match sharing_analysis with
  | [] => None
  | _ =>
      let blocks :=
        map (λ '(name, data), (name, data, risk_line data)) (sorted_users sharing_analysis) in
      let values := map snd sharing_analysis in
      let total := len sharing_analysis in
      let high := sum_ones (λ data, 30 <? suspicious_score data) values in
      let medium :=
        sum_ones (λ data, (10 <? suspicious_score data) && (suspicious_score data <=? 30))
          values in
      Some (blocks,
            {| total_users := total; high_risk := high; medium_risk := medium;
               low_risk := total - high - medium |})
  end.

#[global] Instance risk_eq_dec : EqDecision risk.
Proof. solve_decision. Defined.

(** ** Views used in the statements *)

(** The [connection_info] a line gives rise to, if any. *)
Definition connection_in (secret_to_user : gmap string string) (line : log_line)
  : option connection_info :=
  if decide (stripped line = "") then None
  else connection_of secret_to_user line <$> found line.

(** The connections of [name] in a log, in the order of the lines. *)
Definition events_of (user_secrets : list (string * string))
    (log_lines : list log_line) (name : string) : list connection_info :=
  filter (λ c, username c = name) (omap (connection_in (invert user_secrets)) log_lines).

(** The lines that [parse_logs] does not skip. *)
Definition is_event (line : log_line) : bool :=
  bool_decide (stripped line ≠ "") && bool_decide (is_Some (found line)).

(** The distinct names of a list, in the order of their first occurrence. *)
Definition first_occurrences (names : list string) : list string :=
  foldl (λ seen name, if decide (name ∈ seen) then seen else seen ++ [name]) [] names.

(** The number of connections stored in [user_connections]. *)
Definition stored (connections_by_user : list (string * list connection_info)) : nat :=
  sum_list (map (λ entry, length entry.2) connections_by_user).

(** The counter [connection_patterns[name][h]], 0 when it was never touched. *)
Definition pattern_count (self : analyzer) (name : string) (h : Z) : Z :=
  default 0 (default ∅ (connection_patterns self !! name) !! h).

(** What the loop of [analyze_sharing_behavior] stores for one entry of
    [user_connections], if anything. *)
Definition report_entry (entry : string * list connection_info)
  : option (string * analysis) :=
  if len entry.2 <? 2 then None else Some (entry.1, analyze_user entry.2).

(** ** Sample logs *)

Definition secret_a : string := "aaaaaaaaaaaaaaaaaaaaaaaaaaaaaaaa".
Definition secret_b : string := "bbbbbbbbbbbbbbbbbbbbbbbbbbbbbbbb".
Definition secret_c : string := "0123456789abcdef0123456789abcdef".

(** The [USERS] of a [config.py] with two users. *)
Definition two_users : list (string * string) :=
  [("alice", secret_a); ("bob", secret_b)].

(** A line stamped [t] seconds after midnight, from [addr], with [sec]. *)
Definition entry (t : Z) (addr sec : string) : log_line :=
  {| stripped := "connected"; found := Some (seconds t, addr, sec) |}.

(** The [connection_info] of such a line of alice. *)
Definition alice_at (t : Z) (addr : string) : connection_info :=
  {| timestamp := seconds t; ip := addr; secret := secret_a;
     username := "alice"; raw_log := "connected" |}.

(** Three connections of alice at the same instant, two of them from one
    address. *)
Definition log_same_instant : list log_line :=
  [entry 60 "1.1.1.1" secret_a; entry 60 "1.1.1.1" secret_a;
   entry 60 "2.2.2.2" secret_a].

(** One connection of alice. *)
Definition log_single : list log_line := [entry 0 "1.1.1.1" secret_a].

(** Three connections of alice from three addresses within a minute. *)
Definition log_three_addresses : list log_line :=
  [entry 0 "1.1.1.1" secret_a; entry 30 "2.2.2.2" secret_a; entry 59 "3.3.3.3" secret_a].

(** Two connections of alice, 100 seconds apart. *)
Definition log_two_apart : list log_line :=
  [entry 0 "1.1.1.1" secret_a; entry 100 "1.1.1.1" secret_a].

(** bob and alice with the same connections, bob's lines first. *)
Definition log_bob_first : list log_line :=
  [entry 0 "1.1.1.1" secret_b; entry 0 "1.1.1.1" secret_a;
   entry 100 "1.1.1.1" secret_b; entry 100 "1.1.1.1" secret_a].

(** alice with two connections, then bob with three, each from one address. *)
Definition log_fewer_first : list log_line :=
  [entry 0 "1.1.1.1" secret_a; entry 1000 "1.1.1.1" secret_a;
   entry 2000 "2.2.2.2" secret_b; entry 3000 "2.2.2.2" secret_b;
   entry 4000 "2.2.2.2" secret_b].

(** A secret that is not in the configuration, twice, among alice's lines. *)
Definition log_unknown : list log_line :=
  [entry 0 "1.1.1.1" secret_a; entry 10 "9.9.9.9" secret_c;
   entry 20 "1.1.1.1" secret_a; entry 30 "9.9.9.9" secret_c].

(** What [main] computes from a configuration and a log. *)
Definition run (user_secrets : list (string * string)) (log_lines : list log_line)
  : list (string * analysis) :=
  analyze_sharing_behavior (parse_logs user_secrets log_lines init).

(** ** The formulas of the specification, for comparison with the code *)

(** Correlation Engine: a pair of events counts iff the absolute
    difference of the timestamps is below 300 s and the addresses differ. *)
Definition spec_concurrent (e1 e2 : connection_info) : bool :=
  bool_decide (Z.abs (timestamp e1 - timestamp e2) < seconds 300)
  && bool_decide (ip e1 ≠ ip e2).

(** [P] at the elements in positions [i] and [j] of [l]. *)
Definition holds_at {A : Type} (P : A → A → bool) (l : list A) (i j : nat) : bool :=
  match l !! i, l !! j with
  | Some a, Some b => P a b
  | _, _ => false
  end.

(** The unordered pairs of positions of [l], each written [(i, j)] with
    [i < j], whose elements satisfy [P]. *)
Definition position_pairs {A : Type} (P : A → A → bool) (l : list A) : list (nat * nat) :=
  List.filter (λ '(i, j), (i <? j)%nat && holds_at P l i j)
    (list_prod (seq 0 (length l)) (seq 0 (length l))).

Definition spec_concurrent_pairs (events : list connection_info) : Z :=
  len (position_pairs spec_concurrent events).

(** The same count by recursion: each element against the later ones. *)
Fixpoint later_count {A : Type} (P : A → A → bool) (l : list A) : nat :=
  match l with
  | [] => 0
  | a :: l' => length (List.filter (P a) l') + later_count P l'
  end.

(** The pairs of events at exactly the same instant from different
    addresses, and the other pairs that count. *)
Definition same_instant (e1 e2 : connection_info) : bool :=
  bool_decide (timestamp e1 = timestamp e2) && bool_decide (ip e1 ≠ ip e2).

Definition near_instants (e1 e2 : connection_info) : bool :=
  negb (bool_decide (timestamp e1 = timestamp e2)) && spec_concurrent e1 e2.

(** Risk Scorer, steps 1 to 4: the three contributions added up, then the cap. *)
Definition spec_base (unique_ips concurrent_pairs total_connections : Z) : Z :=
  (if 1 <? unique_ips then unique_ips * 10 else 0)
  + concurrent_pairs * 50
  + (if 20 <? total_connections then (total_connections - 20) * 2 else 0).

Definition spec_score (unique_ips concurrent_pairs total_connections : Z) : Z :=
  Z.min (spec_base unique_ips concurrent_pairs total_connections) 100.

(** ** The monitor of [monitor.py]

    The class [MTProxyMonitor]. The lists of connections that
    [get_active_connections] and [get_process_connections] read from
    [netstat] and [lsof], and the readings of the clock, are arguments. *)

(** [Counter(keys)], and the dictionary a loop over [keys] doing
    [d[key] += 1] builds from an empty [defaultdict(int)]. *)
Definition counter (keys : list string) : list (string * Z) :=
  foldl (λ d key, dict_set key (default 0 (dict_get key d) + 1) d) [] keys.

(** [l[-n:]] for a positive [n] *)
Definition last_items {A : Type} (n : nat) (l : list A) : list A :=
  drop (length l - n) l.

Module Monitor.

(** An element of the lists of connections. *)
Record connection := {
  local : string;
  remote : string;
  remote_ip : string;
  timestamp : Z
}.

(** An element of [suspicious_activity], by its [type]. *)
Inductive activity :=
  | multiple_connections (ip : string) (count : Z) (timestamp : Z)
  | frequent_connections (ip : string) (connection_times : Z) (timestamp : Z).

Definition activity_timestamp (a : activity) : Z :=
  match a with
  | multiple_connections _ _ t => t
  | frequent_connections _ _ t => t
  end.

Definition activity_ip (a : activity) : string :=
  match a with
  | multiple_connections ip _ _ => ip
  | frequent_connections ip _ _ => ip
  end.

(** The attributes of the monitor. A connection time of [user_ips] is the
    text [strftime('%Y-%m-%d %H:%M')] of a time: two times give the same
    text exactly when they fall in the same minute, and the text is
    represented by the number of that minute. *)
Record monitor := {
  connection_history : gmap string (list connection);
  user_ips : gmap string (gset Z);
  suspicious_activity : list activity
}.

(** [__init__] *)
Definition init : monitor :=
  {| connection_history := ∅; user_ips := ∅; suspicious_activity := [] |}.

Definition minute (t : Z) : Z := t / 60000000.

(** The body of the first loop of [analyze_user_behavior], on the pair of
    [ip_connections] and [self.user_ips]. *)
Definition count_connection (label : Z)
    (state : list (string * Z) * gmap string (gset Z)) (conn : connection)
  : list (string * Z) * gmap string (gset Z) :=
  (dict_set (remote_ip conn)
     (default 0 (dict_get (remote_ip conn) state.1) + 1) state.1,
   <[remote_ip conn := default ∅ (state.2 !! remote_ip conn) ∪ {[label]}]> state.2).

(** The body of the second loop, on [self.suspicious_activity]. Every
    address of [ip_connections] has its set in [user_ips] by then. *)
Definition detect (current_time : Z) (ips : gmap string (gset Z))
    (found : list activity) (item : string * Z) : list activity :=
  let found :=
    if 3 <? item.2
    then found ++ [multiple_connections item.1 item.2 current_time] else found in
  let unique_times := Z.of_nat (size (default ∅ (ips !! item.1))) in
  if 10 <? unique_times
  then found ++ [frequent_connections item.1 unique_times current_time] else found.

Definition analyze_user_behavior (self : monitor) (connections : list connection)
    (current_time : Z) : monitor :=
  let state :=
    foldl (count_connection (minute current_time)) ([], user_ips self) connections in
  {| connection_history := connection_history self;
     user_ips := state.2;
     suspicious_activity :=
       foldl (detect current_time state.2) (suspicious_activity self) state.1 |}.

(** The dictionary returned by [get_connection_stats]. *)
Record stats := {
  total_connections : Z;
  unique_users : Z;
  connections_by_ip : list (string * Z);
  active_connections : list connection;
  stats_timestamp : Z
}.

(** [get_connection_stats], given the results of its two queries and the
    times read in [analyze_user_behavior] and for the result. *)
Definition get_connection_stats (self : monitor)
    (connections process_connections : list connection)
    (current_time now : Z) : monitor * stats :=
  let active_connections :=
    match process_connections with
    | [] => connections
    | _ => process_connections
    end in
  let self := analyze_user_behavior self active_connections current_time in
  let unique_ips : gset string := list_to_set (map remote_ip active_connections) in
  let ip_counts := counter (map remote_ip active_connections) in
  (self,
   {| total_connections := len active_connections;
      unique_users := Z.of_nat (size unique_ips);
      connections_by_ip := ip_counts;
      active_connections := active_connections;
      stats_timestamp := now |}).

(** The comprehension of [print_stats] that keeps the activities of the
    last five minutes. [datetime.now()] is evaluated once for every element
    of [self.suspicious_activity]: [clock i] is the time read for the
    element at index [i]. *)
Fixpoint recent_suspicious (clock : nat → Z) (found : list activity)
  : list activity :=
  match found with
  | [] => []
  | a :: found =>
      let rest := recent_suspicious (λ i, clock (S i)) found in
      if clock 0%nat - 5 * 60000000 <? activity_timestamp a
      then a :: rest else rest
  end.

(** What [print_stats] prints: a line per address, with its warning or
    its check mark, and the suspicious activities it shows. *)
Definition print_stats (self : monitor) (result : stats) (clock : nat → Z)
  : list (bool * string * Z) * list activity :=
  let lines :=
    map (λ item : string * Z, (2 <? item.2, item.1, item.2))
      (sorted (λ item : string * Z, item.2) true (connections_by_ip result)) in
  (lines, last_items 5 (recent_suspicious clock (suspicious_activity self))).

(** What one round of the loop of [monitor_continuous] reads: the results
    of the two queries and the clock at each place it is read. *)
Record reading := {
  netstat : list connection;
  lsof : list connection;
  analysis_time : Z;
  stats_time : Z;
  print_clock : nat → Z
}.

(** The loop of [monitor_continuous], for the rounds done before it is
    interrupted: the monitor after them and what each round printed. *)
Definition monitor_continuous (self : monitor) (readings : list reading)
  : monitor * list (list (bool * string * Z) * list activity) :=
  foldl
    (λ state r,
       let result :=
         get_connection_stats state.1 (netstat r) (lsof r)
           (analysis_time r) (stats_time r) in
       (result.1, state.2 ++ [print_stats result.1 result.2 (print_clock r)]))
    (self, []) readings.

End Monitor.

(** The number of occurrences of [key] in [keys]. *)
Definition occurrences (key : string) (keys : list string) : Z :=
  len (filter (λ k, k = key) keys).

(** The sum of the values of a dictionary of counters. *)
Definition total_count (d : list (string * Z)) : Z :=
  foldr (λ item acc, item.2 + acc) 0 d.

(** What one round of the second loop of [analyze_user_behavior] appends. *)
Definition findings (current_time : Z) (ips : gmap string (gset Z))
    (item : string * Z) : list Monitor.activity :=
  (if 3 <? item.2
   then [Monitor.multiple_connections item.1 item.2 current_time] else [])
  ++ (if 10 <? Z.of_nat (size (default ∅ (ips !! item.1)))
      then [Monitor.frequent_connections item.1
              (Z.of_nat (size (default ∅ (ips !! item.1)))) current_time]
      else []).

(** What holds of every record of a monitor started afresh, after [n]
    rounds of the loop. *)
Definition above_threshold (n : Z) (a : Monitor.activity) : Prop :=
  match a with
  | Monitor.multiple_connections _ count _ => 3 < count
  | Monitor.frequent_connections _ connection_times _ => 10 < connection_times ≤ n
  end.

(** Sample connections for the monitor. *)
Definition conn_from (addr : string) : Monitor.connection :=
  {| Monitor.local := "10.0.0.1:443";
     Monitor.remote := addr +:+ ":50000";
     Monitor.remote_ip := addr;
     Monitor.timestamp := 0 |}.

Definition four_from_one : list Monitor.connection :=
  [conn_from "1.1.1.1"; conn_from "2.2.2.2"; conn_from "1.1.1.1";
   conn_from "1.1.1.1"; conn_from "1.1.1.1"].

(** A monitor that holds seven records, the first two of them old. *)
Definition seven_records : Monitor.monitor :=
  {| Monitor.connection_history := ∅;
     Monitor.user_ips := ∅;
     Monitor.suspicious_activity :=
       [Monitor.multiple_connections "1.1.1.1" 4 0;
        Monitor.multiple_connections "2.2.2.2" 5 100000000;
        Monitor.multiple_connections "1.1.1.1" 4 700000000;
        Monitor.multiple_connections "3.3.3.3" 6 700000000;
        Monitor.multiple_connections "1.1.1.1" 7 730000000;
        Monitor.frequent_connections "1.1.1.1" 11 730000000;
        Monitor.multiple_connections "2.2.2.2" 4 760000000] |}.

Definition no_stats : Monitor.stats :=
  {| Monitor.total_connections := 0;
     Monitor.unique_users := 0;
     Monitor.connections_by_ip := [];
     Monitor.active_connections := [];
     Monitor.stats_timestamp := 800000000 |}.

(** * The user manager *)

Module ManageUsers.

(** Text is a list of characters, and a file is the list of the
    characters it holds. The patterns and literals of [add_user] name ASCII
    characters only; a character outside ASCII stands as the run of the
    bytes of its UTF-8 form, none of which is an ASCII character, so that
    searching and replacing give the same result as on the characters. *)
Definition text : Type := list ascii.

Definition chars (s : string) : text := String.list_ascii_of_string s.

Definition quote : ascii := ascii_of_nat 34.
Definition newline : ascii := ascii_of_nat 10.
Definition carriage_return : ascii := ascii_of_nat 13.
Definition closing_brace : ascii := ascii_of_nat 125.

(** [read_config]: the file is opened in text mode, and [f.read()] gives
    one newline for every carriage return followed by a newline and for
    every other carriage return of the file. *)
Fixpoint read_config (file : text) : text :=
  match file with
  | [] => []
  | c :: rest =>
      if bool_decide (c = carriage_return)
      then newline
           :: match rest with
              | c' :: rest' =>
                  if bool_decide (c' = newline)
                  then read_config rest' else read_config rest
              | [] => []
              end
      else c :: read_config rest
  end.

(** [os.linesep] *)
Inductive platform := posix | windows.

Definition linesep (os : platform) : text :=
  match os with
  | posix => [newline]
  | windows => [carriage_return; newline]
  end.

(** [write_config]: the file is opened in text mode, and [f.write] puts
    [os.linesep] in the file for every newline of the text. The result is
    the file written. *)
Definition write_config (os : platform) (content : text) : text :=
  flat_map (λ c, if bool_decide (c = newline) then linesep os else [c]) content.

(** [sub in s] *)
Fixpoint contains (sub s : text) : bool :=
  bool_decide (sub `prefix_of` s)
  || match s with
     | [] => false
     | _ :: rest => contains sub rest
     end.

(** [s.replace(old, new)] for a non-empty [old]: the occurrences of [old]
    are replaced from left to right, the search going on behind each
    occurrence replaced. [skip] is the number of characters of the last
    occurrence replaced that are still to be passed over. *)
Fixpoint replace_from (old new : text) (skip : nat) (s : text) : text :=
  match s with
  | [] => []
  | c :: rest =>
      match skip with
      | S skip => replace_from old new skip rest
      | O =>
          if bool_decide (old `prefix_of` s)
          then new ++ replace_from old new (length old - 1) rest
          else c :: replace_from old new 0 rest
      end
  end.

Definition replace (old new s : text) : text := replace_from old new 0 s.

(** The longest run of characters of a class at the start of a text, and
    what follows it. *)
Fixpoint span (class : ascii → bool) (s : text) : text * text :=
  match s with
  | [] => ([], [])
  | c :: rest =>
      if class c then let run := span class rest in (c :: run.1, run.2)
      else ([], s)
  end.

(** The class [[a-zA-Z0-9_-]]. *)
Definition word_char (c : ascii) : bool :=
  let n := N_of_ascii c in
  ((97 <=? n) && (n <=? 122) || (65 <=? n) && (n <=? 90)
   || (48 <=? n) && (n <=? 57) || (n =? 95) || (n =? 45))%N.

(** [re.match(r'^[a-zA-Z0-9_-]+$', username)] finds a match: the class is
    repeated one or more times, and [$] holds at the end of the text and
    also just before a newline that ends the text. Only the longest run
    can be followed by either. *)
Definition valid_username (username : text) : bool :=
  let run := span word_char username in
  bool_decide (run.1 ≠ [])
  && (bool_decide (run.2 = []) || bool_decide (run.2 = [newline])).

(** Group 1 of the [re.search] of [add_user], whose pattern is the text
    [USERS = {] followed by any number of characters other than a closing
    brace, all of it in the group: the leftmost [USERS = {] with what
    follows it up to the first closing brace or the end of the text. *)
Fixpoint users_section (content : text) : option text :=
  match content with
  | [] => None
  | _ :: rest =>
      if bool_decide (chars "USERS = {" `prefix_of` content)
      then Some (chars "USERS = {"
                 ++ (span (λ c, negb (bool_decide (c = closing_brace)))
                       (drop 9 content)).1)
      else users_section rest
  end.

(** [f'"{username}":'] *)
Definition user_key (username : text) : text :=
  [quote] ++ username ++ [quote] ++ chars ":".

(** [f'    "{username}": "{secret}",'] *)
Definition new_entry (username secret : text) : text :=
  chars "    " ++ [quote] ++ username ++ [quote] ++ chars ": "
  ++ [quote] ++ secret ++ [quote] ++ chars ",".

Inductive message :=
  | invalid_characters
  | already_exists
  | section_not_found
  | added_successfully.

(** What a call leaves behind: the value returned, the configuration file
    and the message printed. *)
Record result := {
  returned : bool;
  config : text;
  printed : message
}.

(** [add_user] on a platform, given the secret that [generate_secret]
    draws and the configuration file. The file is written only when the
    user is added. *)
Definition add_user (os : platform) (username secret file : text) : result :=
  if negb (valid_username username)
  then {| returned := false; config := file; printed := invalid_characters |}
  else
    let content := read_config file in
    if contains (user_key username) content
    then {| returned := false; config := file; printed := already_exists |}
    else
      match users_section content with
      | None =>
          {| returned := false; config := file; printed := section_not_found |}
      | Some section =>
          let updated_content :=
            replace section (section ++ [newline] ++ new_entry username secret)
              content in
          {| returned := true; config := write_config os updated_content;
             printed := added_successfully |}
      end.

End ManageUsers.

(** A configuration file, with lines that end in a newline, and a secret. *)
Definition sample_config : ManageUsers.text :=
  ManageUsers.chars "PORT = 443" ++ [ManageUsers.newline]
  ++ ManageUsers.chars "USERS = {" ++ [ManageUsers.newline]
  ++ ManageUsers.new_entry (ManageUsers.chars "tg")
       (ManageUsers.chars "00000000000000000000000000000001")
  ++ [ManageUsers.newline]
  ++ ManageUsers.chars "}" ++ [ManageUsers.newline].

Definition sample_secret : ManageUsers.text :=
  ManageUsers.chars "0123456789abcdef0123456789abcdef".

(** * Facts about the built-ins *)

Section SortFacts.
Context {A : Type} (key : A → Z).

Let ascending : relation A := λ a b, key a ≤ key b.
Let descending : relation A := λ a b, key b ≤ key a.

Lemma insort_perm x l : insort key x l ≡ₚ x :: l.
Proof.
  induction l as [|y l IH]; simpl; [done|].
  destruct (key x <=? key y); [done|].
  rewrite IH. apply Permutation_swap.
Qed.

Lemma sort_ascending_perm l : sort_ascending key l ≡ₚ l.
Proof.
  induction l as [|x l IH]; simpl; [done|].
  by rewrite insort_perm, IH.
Qed.

Lemma sorted_perm reverse l : sorted key reverse l ≡ₚ l.
Proof.
  unfold sorted. destruct reverse.
  - by rewrite <- Permutation_rev, sort_ascending_perm, <- Permutation_rev.
  - apply sort_ascending_perm.
Qed.

Lemma insort_sorted x l :
  StronglySorted ascending l → StronglySorted ascending (insort key x l).
Proof.
  induction 1 as [|y l Hl IH Hy]; simpl.
  - repeat constructor.
  - destruct (Z.leb_spec (key x) (key y)) as [Hle|Hlt].
    + constructor; [by constructor|].
      constructor; [done|].
      eapply Forall_impl; [exact Hy|].
      unfold ascending. intros z Hz. lia.
    + constructor; [done|].
      rewrite insort_perm. constructor; [|done].
      unfold ascending. lia.
Qed.

Lemma sort_ascending_sorted l : StronglySorted ascending (sort_ascending key l).
Proof.
  induction l as [|x l IH]; simpl; [constructor|].
  by apply insort_sorted.
Qed.

Lemma StronglySorted_rev (l : list A) :
  StronglySorted ascending l → StronglySorted descending (rev l).
Proof.
  induction 1 as [|x l Hl IH Hx]; simpl; [constructor|].
  apply StronglySorted_app_2; [|done|repeat constructor].
  intros a b Ha Hb. apply list_elem_of_singleton in Hb as ->.
  apply list_elem_of_In, in_rev, list_elem_of_In in Ha.
  rewrite Forall_forall in Hx. exact (Hx a Ha).
Qed.

Lemma sorted_reverse_descending l : StronglySorted descending (sorted key true l).
Proof. apply StronglySorted_rev, sort_ascending_sorted. Qed.

(** Stability: the elements of any given key come out in the order they
    came in. *)
Lemma insort_stable k x l :
  filter (λ a, key a = k) (insort key x l) = filter (λ a, key a = k) (x :: l).
Proof.
  induction l as [|y l IH]; simpl; [done|].
  destruct (Z.leb_spec (key x) (key y)) as [Hle|Hlt]; [done|].
  rewrite filter_cons, IH, !filter_cons.
  repeat case_decide; try done; lia.
Qed.

Lemma sort_ascending_stable k l :
  filter (λ a, key a = k) (sort_ascending key l) = filter (λ a, key a = k) l.
Proof.
  induction l as [|x l IH]; simpl; [done|].
  by rewrite insort_stable, !filter_cons, IH.
Qed.

Lemma filter_rev (P : A → Prop) `{!∀ a, Decision (P a)} (l : list A) :
  filter P (rev l) = rev (filter P l).
Proof.
  induction l as [|x l IH]; simpl; [done|].
  rewrite filter_app, IH, !filter_cons, filter_nil.
  case_decide; simpl; [done|]. by rewrite app_nil_r.
Qed.

Lemma sorted_stable k reverse l :
  filter (λ a, key a = k) (sorted key reverse l) = filter (λ a, key a = k) l.
Proof.
  unfold sorted. destruct reverse.
  - by rewrite filter_rev, sort_ascending_stable, filter_rev, rev_involutive.
  - apply sort_ascending_stable.
Qed.
End SortFacts.




(** * The score *)

Lemma score_before_cap_spec u p t : score_before_cap u p t = spec_base u p t.
Proof. unfold score_before_cap, spec_base. repeat case_match; lia. Qed.

(** C4: for all integers (the non-negative ones in particular),
    [calculate_suspicious_score] returns [min(base, 100)] where [base] adds
    [unique_ips * 10] when [unique_ips > 1], [concurrent_pairs * 50], and
    [(total_connections - 20) * 2] when [total_connections > 20]. *)
Theorem calculate_suspicious_score_formula (unique_ips concurrent_pairs total_connections : Z) :
  calculate_suspicious_score unique_ips concurrent_pairs total_connections
  = Z.min
      ((if 1 <? unique_ips then unique_ips * 10 else 0)
       + concurrent_pairs * 50
       + (if 20 <? total_connections then (total_connections - 20) * 2 else 0))
      100
  ∧ calculate_suspicious_score unique_ips concurrent_pairs total_connections
    = spec_score unique_ips concurrent_pairs total_connections
  ∧ calculate_suspicious_score 1 0 25 = 10.
Proof.
  unfold calculate_suspicious_score, spec_score.
  rewrite score_before_cap_spec. by repeat split.
Qed.

(** C6: for non-negative [unique_ips], [concurrent_pairs] and
    [total_connections] the score lies between 0 and 100, both included. *)
Theorem calculate_suspicious_score_range (unique_ips concurrent_pairs total_connections : Z) :
  0 ≤ unique_ips → 0 ≤ concurrent_pairs → 0 ≤ total_connections →
  0 ≤ calculate_suspicious_score unique_ips concurrent_pairs total_connections ≤ 100.
Proof.
  intros Hu Hp Ht. unfold calculate_suspicious_score.
  rewrite score_before_cap_spec. unfold spec_base.
  repeat case_match; lia.
Qed.

Lemma calculate_suspicious_score_range_witness :
  0 ≤ calculate_suspicious_score 3 3 25 ≤ 100.
Proof. apply (calculate_suspicious_score_range 3 3 25); lia. Defined.

(** C7: raising [unique_ips], [concurrent_pairs] or [total_connections] by
    any [d >= 0], the other two arguments unchanged, never lowers the score. *)
Theorem calculate_suspicious_score_monotone
    (unique_ips concurrent_pairs total_connections d : Z) :
  0 ≤ d →
  calculate_suspicious_score unique_ips concurrent_pairs total_connections
    ≤ calculate_suspicious_score (unique_ips + d) concurrent_pairs total_connections
  ∧ calculate_suspicious_score unique_ips concurrent_pairs total_connections
    ≤ calculate_suspicious_score unique_ips (concurrent_pairs + d) total_connections
  ∧ calculate_suspicious_score unique_ips concurrent_pairs total_connections
    ≤ calculate_suspicious_score unique_ips concurrent_pairs (total_connections + d).
Proof.
  intros Hd. unfold calculate_suspicious_score.
  rewrite !score_before_cap_spec. unfold spec_base.
  repeat split; apply Z.min_le_compat_r; repeat case_match; nia.
Qed.

Lemma calculate_suspicious_score_monotone_witness :
  calculate_suspicious_score 1 0 20 ≤ calculate_suspicious_score (1 + 1) 0 20
  ∧ calculate_suspicious_score 1 0 20 ≤ calculate_suspicious_score 1 (0 + 1) 20
  ∧ calculate_suspicious_score 1 0 20 ≤ calculate_suspicious_score 1 0 (20 + 1).
Proof. apply (calculate_suspicious_score_monotone 1 0 20 1). lia. Defined.

(** * The report *)

Lemma risk_line_spec (data : analysis) :
  (risk_line data = HIGH_RISK ↔ 30 < suspicious_score data)
  ∧ (risk_line data = MEDIUM_RISK ↔ 10 < suspicious_score data ≤ 30)
  ∧ (risk_line data = LOW_RISK ↔ suspicious_score data ≤ 10).
Proof.
  unfold risk_line.
  destruct (Z.ltb_spec 30 (suspicious_score data));
    destruct (Z.ltb_spec 10 (suspicious_score data));
    repeat split; intros; try done; lia.
Qed.



(** C3 (as the code has it): the order in which [print_analysis] lists the
    users is a rearrangement of the analysis sorted by [suspicious_score]
    descending; users with equal scores stay in the order the analysis
    holds them (that of their first line in the log), whatever their
    [total_connections] and names. *)
Theorem sorted_users_by_score_stable (sharing_analysis : list (string * analysis)) :
  sorted_users sharing_analysis ≡ₚ sharing_analysis
  ∧ StronglySorted (λ a b, suspicious_score b.2 ≤ suspicious_score a.2)
      (sorted_users sharing_analysis)
  ∧ ∀ score : Z,
      filter (λ x, suspicious_score x.2 = score) (sorted_users sharing_analysis)
      = filter (λ x, suspicious_score x.2 = score) sharing_analysis.
Proof.
  unfold sorted_users. split; [apply sorted_perm|].
  split; [apply sorted_reverse_descending|].
  intros score.
  apply (sorted_stable (λ x : string * analysis, suspicious_score x.2)).
Qed.



(** C3, counterexample: bob and alice have the same figures and the same
    score, alice sorts before bob by name, and the report lists bob first
    because his lines come first in the log; in the second log alice is
    listed before bob although, at equal scores, bob has more connections. *)
Lemma tie_order_follows_log :
  (∃ data, dict_get "alice" (run two_users log_bob_first) = Some data
           ∧ dict_get "bob" (run two_users log_bob_first) = Some data)
  ∧ String.ltb "alice" "bob" = true
  ∧ (λ out, map (λ b, b.1.1) out.1) <$> print_analysis (run two_users log_bob_first)
    = Some ["bob"; "alice"]
  ∧ (λ out, map (λ b, (b.1.1, suspicious_score b.1.2, total_connections b.1.2)) out.1)
      <$> print_analysis (run two_users log_fewer_first)
    = Some [("alice", 0, 2); ("bob", 0, 3)].
Proof.
  split; [eexists; split; vm_compute; reflexivity|].
  repeat split; vm_compute; reflexivity.
Qed.

(** * Dictionaries *)

Section DictFacts.
Context {V : Type}.
Implicit Types (d : list (string * V)) (k : string).

Lemma dict_get_None k d : dict_get k d = None ↔ k ∉ map fst d.
Proof.
  induction d as [|[k' v] d IH]; simpl.
  - split; [intros _; apply not_elem_of_nil|done].
  - rewrite not_elem_of_cons. case_decide; [|tauto].
    split; [done|]. by intros [? _].
Qed.

Lemma dict_get_elem_of k v d : NoDup (map fst d) → (k, v) ∈ d → dict_get k d = Some v.
Proof.
  induction d as [|[k' v'] d IH]; simpl; intros Hnd Hin.
  - by apply elem_of_nil in Hin.
  - apply NoDup_cons in Hnd as [Hk' Hnd].
    apply elem_of_cons in Hin as [[= -> ->]|Hin]; [by rewrite decide_True|].
    case_decide as Hk; [|by apply IH]. subst k'. destruct Hk'.
    apply list_elem_of_fmap. by exists (k, v).
Qed.

Lemma dict_get_set k k' v d :
  dict_get k (dict_set k' v d) = if decide (k = k') then Some v else dict_get k d.
Proof.
  induction d as [|[k0 v0] d IH]; simpl.
  - by repeat case_decide.
  - repeat (case_decide; simpl); subst; try done; by rewrite IH, ?decide_True, ?decide_False.
Qed.

Lemma dict_set_fresh k v d : k ∉ map fst d → dict_set k v d = d ++ [(k, v)].
Proof.
  induction d as [|[k0 v0] d IH]; simpl; [done|].
  rewrite not_elem_of_cons. intros [Hne Hk].
  by rewrite decide_False, IH.
Qed.
End DictFacts.

Lemma dict_get_append {X : Type} (k k' : string) (x : X) (d : list (string * list X)) :
  dict_get k (dict_append k' x d)
  = if decide (k = k') then Some (default [] (dict_get k d) ++ [x]) else dict_get k d.
Proof.
  induction d as [|[k0 xs] d IH]; simpl.
  - by repeat case_decide.
  - repeat (case_decide; simpl); subst; try done; by rewrite IH, ?decide_True, ?decide_False.
Qed.

Lemma dict_append_key {X : Type} (k0 k : string) (x : X) (d : list (string * list X)) :
  k0 ∈ map fst (dict_append k x d) → k0 = k ∨ k0 ∈ map fst d.
Proof.
  induction d as [|[k1 xs] d IH]; simpl.
  - rewrite list_elem_of_singleton. by left.
  - case_decide; simpl; rewrite !elem_of_cons; [tauto|].
    intros [->|Hin]; [tauto|]. destruct (IH Hin); tauto.
Qed.

Lemma dict_append_NoDup {X : Type} (k : string) (x : X) (d : list (string * list X)) :
  NoDup (map fst d) → NoDup (map fst (dict_append k x d)).
Proof.
  induction d as [|[k1 xs] d IH]; simpl; intros Hnd.
  - apply NoDup_singleton.
  - apply NoDup_cons in Hnd as [Hk1 Hnd]. case_decide as Hk; simpl.
    + by apply NoDup_cons.
    + apply NoDup_cons. split; [|by apply IH].
      intros Hin. apply dict_append_key in Hin as [->|Hin]; done.
Qed.

(** * Parsing *)

Lemma invert_lookup_None (user_secrets : list (string * string)) (sec : string) :
  sec ∉ map snd user_secrets → invert user_secrets !! sec = None.
Proof.
  unfold invert.
  assert (∀ m : gmap string string, m !! sec = None →
            sec ∉ map snd user_secrets →
            foldl (λ m '(user, s), <[s := user]> m) m user_secrets !! sec = None) as H.
  { induction user_secrets as [|[user s] l IH]; simpl; intros m Hm Hnot; [done|].
    apply not_elem_of_cons in Hnot as [Hne Hnot].
    apply IH; [|done]. by rewrite lookup_insert_ne. }
  apply H, lookup_empty.
Qed.

Section ParseFacts.
Context (secret_to_user : gmap string string).

Lemma parse_line_connections (self : analyzer) (line : log_line) :
  user_connections (parse_line secret_to_user self line)
  = match connection_in secret_to_user line with
    | Some info => dict_append (username info) info (user_connections self)
    | None => user_connections self
    end.
Proof.
  unfold parse_line, connection_in.
  case_decide; [done|]. by destruct (found line).
Qed.

(** The list stored under [name] after the loop: what was there before,
    followed by the connections of [name] in the lines read. *)
Lemma parse_lines_get (name : string) (log_lines : list log_line) (self : analyzer) :
  dict_get name (user_connections (foldl (parse_line secret_to_user) self log_lines))
  = match filter (λ c, username c = name) (omap (connection_in secret_to_user) log_lines) with
    | [] => dict_get name (user_connections self)
    | new => Some (default [] (dict_get name (user_connections self)) ++ new)
    end.
Proof.
  revert self. induction log_lines as [|line log_lines IH]; intros self; [done|].
  simpl foldl. rewrite IH, parse_line_connections. simpl omap.
  destruct (connection_in secret_to_user line) as [info|]; [|done].
  rewrite filter_cons, dict_get_append.
  destruct (decide (username info = name)) as [<-|Hne].
  - rewrite decide_True by done. simpl.
    destruct (filter _ _) as [|c new]; [done|].
    by rewrite <- app_assoc.
  - by rewrite decide_False.
Qed.

Lemma parse_lines_NoDup (log_lines : list log_line) (self : analyzer) :
  NoDup (map fst (user_connections self)) →
  NoDup (map fst (user_connections (foldl (parse_line secret_to_user) self log_lines))).
Proof.
  revert self. induction log_lines as [|line log_lines IH]; intros self Hnd; [done|].
  simpl foldl. apply IH. rewrite parse_line_connections.
  destruct (connection_in secret_to_user line); [|done].
  by apply dict_append_NoDup.
Qed.
End ParseFacts.

(** From an empty analyzer, [user_connections] holds exactly the users
    with a connection in the log, each with its connections in log order. *)
Lemma parse_logs_get (user_secrets : list (string * string))
    (log_lines : list log_line) (name : string) :
  dict_get name (user_connections (parse_logs user_secrets log_lines init))
  = match events_of user_secrets log_lines name with
    | [] => None
    | events => Some events
    end.
Proof. unfold parse_logs, events_of. by rewrite parse_lines_get. Qed.

Lemma parse_logs_NoDup (user_secrets : list (string * string)) (log_lines : list log_line) :
  NoDup (map fst (user_connections (parse_logs user_secrets log_lines init))).
Proof. apply parse_lines_NoDup. constructor. Qed.

(** * The analysis *)

Lemma analyze_fold_get (name : string)
    (connections_by_user : list (string * list connection_info))
    (sharing_analysis : list (string * analysis)) :
  NoDup (map fst connections_by_user) →
  dict_get name
    (foldl
       (λ sharing_analysis '(name, connections),
          if len connections <? 2 then sharing_analysis
          else dict_set name (analyze_user connections) sharing_analysis)
       sharing_analysis connections_by_user)
  = match dict_get name connections_by_user with
    | Some connections =>
        if len connections <? 2 then dict_get name sharing_analysis
        else Some (analyze_user connections)
    | None => dict_get name sharing_analysis
    end.
Proof.
  revert sharing_analysis.
  induction connections_by_user as [|[k connections] l IH];
    intros sharing_analysis Hnd; [done|].
  simpl map in Hnd. apply NoDup_cons in Hnd as [Hk Hnd]. simpl foldl. rewrite IH by done.
  simpl dict_get. case_decide as Hname.
  - subst k. apply dict_get_None in Hk. rewrite Hk.
    destruct (len connections <? 2); [done|].
    by rewrite dict_get_set, decide_True.
  - destruct (len connections <? 2); [done|].
    rewrite dict_get_set, decide_False by done. done.
Qed.

(** The entry of [name] in the analysis, from its connections in the log. *)
Lemma run_get (user_secrets : list (string * string))
    (log_lines : list log_line) (name : string) :
  dict_get name (run user_secrets log_lines)
  = if len (events_of user_secrets log_lines name) <? 2 then None
    else Some (analyze_user (events_of user_secrets log_lines name)).
Proof.
  unfold run, analyze_sharing_behavior.
  rewrite analyze_fold_get by apply parse_logs_NoDup.
  rewrite parse_logs_get. simpl dict_get.
  by destruct (events_of user_secrets log_lines name).
Qed.

(** C9: a connection whose secret is not in the configuration is not
    dropped by [parse_logs]: it is stored in the list of the placeholder
    user ["unknown_"] followed by the first eight characters of the secret,
    a name that depends on the secret alone. *)
Theorem unknown_secret_grouped (user_secrets : list (string * string))
    (log_lines : list log_line) (line : log_line) (ts : Z) (addr sec : string) :
  line ∈ log_lines →
  stripped line ≠ "" →
  found line = Some (ts, addr, sec) →
  sec ∉ map snd user_secrets →
  ∃ connections,
    dict_get ("unknown_" +:+ String.substring 0 8 sec)
      (user_connections (parse_logs user_secrets log_lines init))
    = Some connections
    ∧ {| timestamp := ts; ip := addr; secret := sec;
         username := "unknown_" +:+ String.substring 0 8 sec;
         raw_log := stripped line |} ∈ connections.
Proof.
  intros Hline Hstripped Hfound Hsec.
  set (name := "unknown_" +:+ String.substring 0 8 sec).
  set (info := {| timestamp := ts; ip := addr; secret := sec;
                  username := name; raw_log := stripped line |}).
  assert (connection_in (invert user_secrets) line = Some info) as Hinfo.
  { unfold connection_in. rewrite decide_False, Hfound by done. simpl.
    unfold resolve. by rewrite invert_lookup_None. }
  assert (info ∈ events_of user_secrets log_lines name) as Hin.
  { unfold events_of. apply list_elem_of_filter. split; [done|].
    apply list_elem_of_omap. by exists line. }
  rewrite parse_logs_get.
  destruct (events_of user_secrets log_lines name) as [|c events] eqn:E.
  - by apply elem_of_nil in Hin.
  - by eexists.
Qed.

Lemma unknown_secret_grouped_witness :
  ∃ connections,
    dict_get "unknown_01234567"
      (user_connections (parse_logs two_users log_unknown init))
    = Some connections
    ∧ {| timestamp := seconds 10; ip := "9.9.9.9"; secret := secret_c;
         username := "unknown_01234567"; raw_log := "connected" |} ∈ connections.
Proof.
  apply (unknown_secret_grouped two_users log_unknown
           (entry 10 "9.9.9.9" secret_c) (seconds 10) "9.9.9.9" secret_c).
  - unfold log_unknown. apply list_elem_of_In. simpl. tauto.
  - discriminate.
  - reflexivity.
  - apply (bool_decide_unpack _). vm_compute. exact I.
Defined.

(** C1, counterexample: the log holds one connection of alice, which
    [parse_logs] stores under her name, and the analysis is empty: alice
    has no entry in it. *)
Lemma single_event_not_reported :
  length (events_of two_users log_single "alice") = 1%nat
  ∧ map fst (user_connections (parse_logs two_users log_single init)) = ["alice"]
  ∧ run two_users log_single = []
  ∧ dict_get "alice" (run two_users log_single) = None.
Proof. repeat split; vm_compute; reflexivity. Qed.

(** C1 (as the code has it): for every log, a user with exactly one
    connection is stored by [parse_logs] and left out of the result of
    [analyze_sharing_behavior], whose loop skips the users with fewer than
    two connections. *)
Theorem single_event_user_omitted (user_secrets : list (string * string))
    (log_lines : list log_line) (name : string) :
  length (events_of user_secrets log_lines name) = 1%nat →
  dict_get name (user_connections (parse_logs user_secrets log_lines init))
  = Some (events_of user_secrets log_lines name)
  ∧ dict_get name (run user_secrets log_lines) = None.
Proof.
  intros Hone. rewrite parse_logs_get, run_get. unfold len. rewrite Hone.
  by destruct (events_of user_secrets log_lines name).
Qed.

Lemma single_event_user_omitted_witness :
  dict_get "alice" (user_connections (parse_logs two_users log_single init))
  = Some (events_of two_users log_single "alice")
  ∧ dict_get "alice" (run two_users log_single) = None.
Proof.
  apply (single_event_user_omitted two_users log_single "alice").
  vm_compute. reflexivity.
Defined.

(** The value the code gives to [avg_interval]: the time from the oldest
    to the newest connection divided by the number of connections, and 0
    when that time is not positive. *)
Lemma avg_interval_value (oldest newest : Z) (between : list Z) :
  avg_interval (oldest :: between ++ [newest])
  = if Qlt_bool 0 (total_seconds (newest - oldest))
    then (total_seconds (newest - oldest)
          / inject_Z (len (oldest :: between ++ [newest])))%Q
    else 0%Q.
Proof.
  unfold avg_interval.
  assert ((1 <? len (oldest :: between ++ [newest])) = true) as ->.
  { apply Z.ltb_lt. unfold len. simpl. rewrite length_app. simpl. lia. }
  change (oldest :: between ++ [newest]) with ((oldest :: between) ++ [newest]).
  by rewrite last_snoc.
Qed.

(** C2, at two connections 100 seconds apart: the code reports the span
    divided by the number of connections, 50 seconds, where the claimed
    [(last_seen - first_seen) / (count - 1)] is 100 seconds. *)
Theorem avg_interval_divides_by_count :
  ∃ data,
    dict_get "alice" (run two_users log_two_apart) = Some data
    ∧ total_connections data = 2
    ∧ first_seen data = Some (seconds 0)
    ∧ last_seen data = Some (seconds 100)
    ∧ Qeq (avg_connection_interval data) (inject_Z 50)
    ∧ Qeq (total_seconds (seconds 100 - seconds 0) / inject_Z (2 - 1)) (inject_Z 100)
    ∧ ¬ Qeq (avg_connection_interval data)
          (total_seconds (seconds 100 - seconds 0) / inject_Z (2 - 1)).
Proof.
  eexists. split; [vm_compute; reflexivity|].
  repeat split; try (vm_compute; reflexivity).
  intros H. vm_compute in H. discriminate.
Qed.

(** * Counting pairs *)

Section PairCount.
Context {A : Type} (P : A → A → bool).

Lemma length_filter_prod {B C : Type} (f : B * C → bool) (I : list B) (J : list C) :
  length (List.filter f (list_prod I J))
  = sum_list (map (λ i, length (List.filter (λ j, f (i, j)) J)) I).
Proof.
  induction I as [|i I IH]; simpl; [done|].
  by rewrite List.filter_app, length_app, filter_map_swap, length_map, IH.
Qed.

Lemma length_filter_positions (f : A → bool) (l : list A) :
  length
    (List.filter (λ j, match l !! j with Some b => f b | None => false end)
       (seq 0 (length l)))
  = length (List.filter f l).
Proof.
  induction l as [|a l IH]; [done|].
  simpl length. simpl seq. rewrite <- seq_shift. simpl List.filter.
  rewrite filter_map_swap.
  destruct (f a); simpl length; rewrite length_map; [f_equal|]; exact IH.
Qed.

Lemma position_pairs_cons (a : A) (l : list A) :
  length (position_pairs P (a :: l))
  = (length (List.filter (P a) l) + length (position_pairs P l))%nat.
Proof.
  unfold position_pairs. rewrite !length_filter_prod.
  simpl length. simpl seq. rewrite <- seq_shift. simpl map. simpl sum_list.
  f_equal.
  - rewrite filter_map_swap, length_map.
    exact (length_filter_positions (P a) l).
  - rewrite map_map. f_equal. apply map_ext. intros i.
    by rewrite filter_map_swap, length_map.
Qed.

Lemma position_pairs_later_count (l : list A) :
  length (position_pairs P l) = later_count P l.
Proof.
  induction l as [|a l IH]; [done|].
  by rewrite position_pairs_cons, IH.
Qed.

Lemma later_count_none (l : list A) :
  (∀ a b, a ∈ l → b ∈ l → P a b = false) → later_count P l = 0%nat.
Proof.
  induction l as [|a l IH]; intros Hnone; [done|]. simpl.
  rewrite IH by (intros; apply Hnone; by constructor).
  assert (List.filter (P a) l = []) as ->; [|done].
  assert (∀ b, b ∈ l → P a b = false) as Ha
    by (intros; apply Hnone; by repeat constructor).
  clear Hnone IH. induction l as [|b l IH]; [done|]. simpl.
  rewrite Ha by constructor. apply IH. intros. apply Ha. by constructor.
Qed.
End PairCount.

Lemma later_count_ext {A : Type} (P1 P2 : A → A → bool) (l : list A) :
  (∀ a b, P1 a b = P2 a b) → later_count P1 l = later_count P2 l.
Proof.
  intros Heq. induction l as [|a l IH]; [done|]. simpl.
  rewrite IH. do 2 f_equal. apply List.filter_ext. intros b. apply Heq.
Qed.

(** * The nested loops *)

Lemma simultaneous_spec (conn1 conn2 : connection_info) :
  simultaneous conn1 conn2 = spec_concurrent conn1 conn2.
Proof.
  unfold simultaneous, spec_concurrent. f_equal.
  unfold Qlt_bool, time_diff, total_seconds, Qle_bool, seconds.
  cbn [Qabs Qnum Qden].
  destruct (Z.leb_spec (300 * Z.pos 1000000)
              (Z.abs (timestamp conn1 - timestamp conn2) * Z.pos 1));
    case_bool_decide; simpl; try done; lia.
Qed.

Lemma length_inner_loop (conn1 : connection_info) (slice : list connection_info) :
  length (inner_loop conn1 slice) = length (List.filter (simultaneous conn1) slice).
Proof.
  unfold inner_loop. induction slice as [|conn2 slice IH]; [done|]. simpl.
  destruct (simultaneous conn1 conn2); simpl; by rewrite IH.
Qed.

(** The loops, started after the connections [visited]. *)
Lemma length_loops_from (visited connections : list connection_info) :
  length
    (flat_map
       (λ '(i, conn1), inner_loop conn1 (drop (S i) (visited ++ connections)))
       (imap (λ i, pair (length visited + i)%nat) connections))
  = later_count simultaneous connections.
Proof.
  revert visited.
  induction connections as [|conn1 connections IH]; intros visited; [done|].
  rewrite imap_cons. simpl flat_map. rewrite length_app. simpl later_count.
  f_equal.
  - rewrite Nat.add_0_r, (cons_middle conn1 visited connections), app_assoc.
    rewrite drop_app_length' by (rewrite length_app; simpl; lia).
    apply length_inner_loop.
  - rewrite <- (IH (visited ++ [conn1])), <- app_assoc. simpl app.
    f_equal. f_equal. apply imap_ext. intros i c _. simpl.
    rewrite length_app. simpl. f_equal. lia.
Qed.

Lemma simultaneous_ips_count (connections : list connection_info) :
  len (simultaneous_ips connections) = spec_concurrent_pairs connections.
Proof.
  unfold spec_concurrent_pairs, len. f_equal.
  rewrite position_pairs_later_count.
  rewrite <- (later_count_ext simultaneous) by apply simultaneous_spec.
  exact (length_loops_from [] connections).
Qed.




Lemma length_filter_split {A : Type} (P P1 P2 : A → bool) (l : list A) :
  (∀ a, P a = P1 a || P2 a) →
  (∀ a, P1 a && P2 a = false) →
  length (List.filter P l)
  = (length (List.filter P1 l) + length (List.filter P2 l))%nat.
Proof.
  intros Hor Hdisjoint. induction l as [|a l IH]; [done|]. simpl.
  specialize (Hor a). specialize (Hdisjoint a).
  destruct (P a), (P1 a), (P2 a); simpl in *; try done; lia.
Qed.

Lemma later_count_split {A : Type} (P P1 P2 : A → A → bool) (l : list A) :
  (∀ a b, P a b = P1 a b || P2 a b) →
  (∀ a b, P1 a b && P2 a b = false) →
  later_count P l = (later_count P1 l + later_count P2 l)%nat.
Proof.
  intros Hor Hdisjoint. induction l as [|a l IH]; [done|]. simpl.
  rewrite IH, (length_filter_split (P a) (P1 a) (P2 a)) by done. lia.
Qed.

Lemma position_pairs_elem_of {A : Type} (P : A → A → bool) (l : list A)
    (i j : nat) (a b : A) :
  (i < j)%nat → l !! i = Some a → l !! j = Some b → P a b = true →
  (i, j) ∈ position_pairs P l.
Proof.
  intros Hlt Hi Hj HP. unfold position_pairs.
  apply list_elem_of_In, filter_In. split.
  - apply in_prod; apply in_seq.
    + apply lookup_lt_Some in Hi. lia.
    + apply lookup_lt_Some in Hj. lia.
  - unfold holds_at. rewrite Hi, Hj, HP.
    by apply andb_true_iff, conj; [apply Nat.ltb_lt|].
Qed.

Lemma simultaneous_ips_elem_of (connections : list connection_info)
    (i j : nat) (conn1 conn2 : connection_info) :
  (i < j)%nat → connections !! i = Some conn1 → connections !! j = Some conn2 →
  simultaneous conn1 conn2 = true →
  (ip conn1, ip conn2, time_diff conn1 conn2) ∈ simultaneous_ips connections.
Proof.
  intros Hlt Hi Hj Hsim. unfold simultaneous_ips, enumerate.
  apply list_elem_of_In, in_flat_map. exists (i, conn1). split.
  - apply list_elem_of_In, elem_of_lookup_imap. by exists i, conn1.
  - unfold inner_loop. apply in_flat_map. exists conn2. split.
    + apply list_elem_of_In, list_elem_of_lookup. exists (j - S i)%nat.
      rewrite lookup_drop. by replace (S i + (j - S i))%nat with j by lia.
    + rewrite Hsim. by left.
Qed.

Lemma same_instant_or_near (e1 e2 : connection_info) :
  spec_concurrent e1 e2 = same_instant e1 e2 || near_instants e1 e2.
Proof.
  unfold same_instant, near_instants, spec_concurrent, seconds.
  destruct (decide (timestamp e1 = timestamp e2)) as [Heq|Hne].
  - rewrite (bool_decide_eq_true_2 _ Heq), Heq, Z.sub_diag. cbn [negb andb].
    rewrite orb_false_r. by rewrite bool_decide_eq_true_2 by (simpl; lia).
  - by rewrite (bool_decide_eq_false_2 _ Hne).
Qed.

Lemma same_instant_not_near (e1 e2 : connection_info) :
  same_instant e1 e2 && near_instants e1 e2 = false.
Proof.
  unfold same_instant, near_instants.
  by destruct (bool_decide (timestamp e1 = timestamp e2)),
    (bool_decide (ip e1 ≠ ip e2)).
Qed.

Lemma same_instant_simultaneous (conn1 conn2 : connection_info) :
  timestamp conn1 = timestamp conn2 → ip conn1 ≠ ip conn2 →
  Qeq (time_diff conn1 conn2) 0 ∧ simultaneous conn1 conn2 = true.
Proof.
  intros Htime Hip. split.
  - unfold time_diff, total_seconds. by rewrite Htime, Z.sub_diag.
  - rewrite simultaneous_spec. unfold spec_concurrent, seconds.
    rewrite Htime, Z.sub_diag. simpl Z.abs.
    by rewrite !bool_decide_eq_true_2.
Qed.

(** C10: every two connections of a user with the same timestamp and
    different addresses, wherever they stand among the connections of the
    user, pass the test of the inner loop (their time difference, 0, is
    below 300): the user is analysed, the pair is among the pairs counted
    and its record is in [simultaneous_ips]. The count of an analysed user
    is the number of all such pairs plus the number of the other pairs
    that count, and each pair of the first kind adds 50 to the score
    before the cap. *)
Theorem identical_timestamps_are_concurrent (user_secrets : list (string * string))
    (log_lines : list log_line) (name : string) :
  let events := events_of user_secrets log_lines name in
  (∀ i j conn1 conn2,
     (i < j)%nat → events !! i = Some conn1 → events !! j = Some conn2 →
     timestamp conn1 = timestamp conn2 → ip conn1 ≠ ip conn2 →
     Qeq (time_diff conn1 conn2) 0
     ∧ simultaneous conn1 conn2 = true
     ∧ (i, j) ∈ position_pairs spec_concurrent events
     ∧ (i, j) ∈ position_pairs same_instant events
     ∧ (ip conn1, ip conn2, time_diff conn1 conn2) ∈ simultaneous_ips events
     ∧ ∃ data, dict_get name (run user_secrets log_lines) = Some data
               ∧ 1 ≤ simultaneous_different_ips data)
  ∧ ∀ data,
      dict_get name (run user_secrets log_lines) = Some data →
      simultaneous_different_ips data
      = len (position_pairs same_instant events)
        + len (position_pairs near_instants events)
      ∧ suspicious_score data
        = Z.min (score_before_cap (unique_ips data)
                   (simultaneous_different_ips data) (total_connections data)) 100
      ∧ score_before_cap (unique_ips data) (simultaneous_different_ips data)
          (total_connections data)
        = score_before_cap (unique_ips data)
            (len (position_pairs near_instants events)) (total_connections data)
          + 50 * len (position_pairs same_instant events).
Proof.
  intros events.
  assert (len (simultaneous_ips events)
          = len (position_pairs same_instant events)
            + len (position_pairs near_instants events)) as Hcount.
  { rewrite simultaneous_ips_count. unfold spec_concurrent_pairs, len.
    rewrite !position_pairs_later_count.
    rewrite (later_count_split spec_concurrent same_instant near_instants).
    - lia.
    - apply same_instant_or_near.
    - apply same_instant_not_near. }
  split.
  - intros i j conn1 conn2 Hlt Hi Hj Htime Hip.
    destruct (same_instant_simultaneous conn1 conn2 Htime Hip) as [Hzero Hsim].
    assert ((i, j) ∈ position_pairs same_instant events) as Hsame.
    { apply (position_pairs_elem_of _ _ _ _ conn1 conn2); try done.
      unfold same_instant. by rewrite !bool_decide_eq_true_2. }
    split_and!; try done.
    + apply (position_pairs_elem_of _ _ _ _ conn1 conn2); try done.
      by rewrite <- simultaneous_spec.
    + by apply (simultaneous_ips_elem_of _ i j).
    + exists (analyze_user events). rewrite run_get.
      assert (1 < length events)%nat as Hlen.
      { apply lookup_lt_Some in Hj. lia. }
      fold events. destruct (Z.ltb_spec (len events) 2) as [Hshort|_];
        [unfold len in Hshort; lia|].
      split; [done|]. cbn [analyze_user simultaneous_different_ips].
      rewrite Hcount.
      assert (0 < length (position_pairs same_instant events))%nat.
      { destruct (position_pairs same_instant events); [|simpl; lia].
        by apply elem_of_nil in Hsame. }
      unfold len. lia.
  - intros data. rewrite run_get. fold events. case_match; [done|].
    intros [= <-]. cbn [analyze_user simultaneous_different_ips suspicious_score
      unique_ips total_connections].
    split_and!; [exact Hcount|done|].
    rewrite Hcount, !score_before_cap_spec. unfold spec_base. lia.
Qed.

Lemma identical_timestamps_are_concurrent_witness :
  ∃ data,
    dict_get "alice" (run two_users log_same_instant) = Some data
    ∧ simultaneous_different_ips data = 2.
Proof.
  destruct (dict_get "alice" (run two_users log_same_instant)) as [data|] eqn:E;
    [|vm_compute in E; discriminate].
  exists data. split; [done|].
  destruct (identical_timestamps_are_concurrent two_users log_same_instant "alice")
    as [_ Hcount].
  destruct (Hcount data E) as [-> _]. vm_compute. reflexivity.
Defined.

(** * More on [parse_logs] *)

Lemma dict_append_keys {X : Type} (k : string) (x : X) (d : list (string * list X)) :
  map fst (dict_append k x d)
  = if decide (k ∈ map fst d) then map fst d else map fst d ++ [k].
Proof.
  induction d as [|[k0 xs] d IH]; cbn [dict_append].
  - rewrite decide_False; [done|]. apply not_elem_of_nil.
  - destruct (decide (k = k0)) as [->|Hne]; cbn [map fst].
    + rewrite decide_True; [done|]. constructor.
    + rewrite IH. destruct (decide (k ∈ map fst d)) as [Hin|Hnin].
      * rewrite decide_True; [done|]. by constructor.
      * rewrite decide_False; [done|]. rewrite not_elem_of_cons. tauto.
Qed.

Lemma dict_append_stored (k : string) (x : connection_info)
    (d : list (string * list connection_info)) :
  stored (dict_append k x d) = S (stored d).
Proof.
  unfold stored. induction d as [|[k0 xs] d IH]; simpl; [done|].
  case_decide; simpl; [rewrite length_app; simpl; lia|]. rewrite IH. lia.
Qed.

Lemma omap_cons {A B : Type} (f : A → option B) (x : A) (l : list A) :
  omap f (x :: l) = match f x with Some y => y :: omap f l | None => omap f l end.
Proof. done. Qed.

Section ParseMore.
Context (secret_to_user : gmap string string).

Lemma parse_lines_keys (log_lines : list log_line) (self : analyzer) :
  map fst (user_connections (foldl (parse_line secret_to_user) self log_lines))
  = foldl (λ seen name, if decide (name ∈ seen) then seen else seen ++ [name])
      (map fst (user_connections self))
      (map username (omap (connection_in secret_to_user) log_lines)).
Proof.
  revert self. induction log_lines as [|line log_lines IH]; intros self; [done|].
  simpl foldl. rewrite IH, parse_line_connections. simpl omap.
  destruct (connection_in secret_to_user line) as [info|]; [|done].
  simpl. by rewrite dict_append_keys.
Qed.

Lemma parse_lines_stored (log_lines : list log_line) (self : analyzer) :
  stored (user_connections (foldl (parse_line secret_to_user) self log_lines))
  = (stored (user_connections self)
     + length (omap (connection_in secret_to_user) log_lines))%nat.
Proof.
  revert self. induction log_lines as [|line log_lines IH]; intros self.
  - simpl. lia.
  - simpl foldl. rewrite IH, parse_line_connections. simpl omap.
    destruct (connection_in secret_to_user line) as [info|]; [|done].
    rewrite dict_append_stored. cbn [length]. by rewrite Nat.add_succ_r.
Qed.

Lemma connection_in_is_event (line : log_line) :
  is_Some (connection_in secret_to_user line) ↔ is_event line = true.
Proof.
  unfold connection_in, is_event. case_decide as Hblank.
  - rewrite bool_decide_eq_false_2 by (intros Hne; by apply Hne). simpl.
    split; [by intros [? ?]|done].
  - rewrite bool_decide_eq_true_2 by done. simpl.
    rewrite bool_decide_eq_true, fmap_is_Some. done.
Qed.

Lemma parse_line_skipped (self : analyzer) (line : log_line) :
  is_event line = false → parse_line secret_to_user self line = self.
Proof.
  unfold is_event, parse_line. intros Hskip.
  case_decide as Hblank; [done|].
  rewrite bool_decide_eq_true_2 in Hskip by done. simpl in Hskip.
  apply bool_decide_eq_false in Hskip.
  destruct (found line); [|done]. destruct Hskip. by eexists.
Qed.
End ParseMore.

(** X1: after [parse_logs] on a fresh analyzer, [user_connections] has at
    most one entry per user name; a name has an entry exactly when a line
    of the log resolves to it, and the entry lists that user's connections
    in the order of the log. *)
Theorem user_connections_groups (user_secrets : list (string * string))
    (log_lines : list log_line) :
  NoDup (map fst (user_connections (parse_logs user_secrets log_lines init)))
  ∧ ∀ name,
      dict_get name (user_connections (parse_logs user_secrets log_lines init))
      = match events_of user_secrets log_lines name with
        | [] => None
        | events => Some events
        end.
Proof. split; [apply parse_logs_NoDup|]. intros name. apply parse_logs_get. Qed.

(** X2: [parse_logs] neither loses nor repeats a connection: the lists of
    [user_connections] hold as many connections as the log has lines that
    are not blank and match a pattern. *)
Theorem parse_logs_stores_each_event_once (user_secrets : list (string * string))
    (log_lines : list log_line) :
  stored (user_connections (parse_logs user_secrets log_lines init))
  = length (List.filter is_event log_lines).
Proof.
  unfold parse_logs. rewrite parse_lines_stored.
  change (stored (user_connections init)) with 0%nat. rewrite Nat.add_0_l.
  induction log_lines as [|line log_lines IH]; [done|].
  rewrite omap_cons. cbn [List.filter].
  pose proof (connection_in_is_event (invert user_secrets) line) as Hiff.
  destruct (connection_in (invert user_secrets) line) as [info|];
    destruct (is_event line); cbn [length]; try (by rewrite IH).
  - destruct Hiff as [Hiff _]. by discriminate Hiff.
  - destruct Hiff as [_ Hiff]. by destruct Hiff.
Qed.

(** X3: blank lines and lines that match no pattern leave every attribute
    of the analyzer as it is: parsing a log gives the state that parsing
    its other lines alone gives. *)
Theorem parse_logs_ignores_noise (user_secrets : list (string * string))
    (log_lines : list log_line) (self : analyzer) :
  parse_logs user_secrets log_lines self
  = parse_logs user_secrets (List.filter is_event log_lines) self.
Proof.
  unfold parse_logs. revert self.
  induction log_lines as [|line log_lines IH]; intros self; [done|]. simpl.
  destruct (is_event line) eqn:E; simpl.
  - apply IH.
  - rewrite parse_line_skipped by done. apply IH.
Qed.

(** X4: the users of [user_connections] come in the order of their first
    connection in the log. *)
Theorem user_connections_order (user_secrets : list (string * string))
    (log_lines : list log_line) :
  map fst (user_connections (parse_logs user_secrets log_lines init))
  = first_occurrences
      (map username (omap (connection_in (invert user_secrets)) log_lines)).
Proof. unfold parse_logs, first_occurrences. by rewrite parse_lines_keys. Qed.

Section ParseMaps.
Context (secret_to_user : gmap string string).

Lemma parse_line_ip_to_user (self : analyzer) (line : log_line) :
  ip_to_user (parse_line secret_to_user self line)
  = match connection_in secret_to_user line with
    | Some info => <[ip info := username info]> (ip_to_user self)
    | None => ip_to_user self
    end.
Proof.
  unfold parse_line, connection_in.
  case_decide; [done|]. by destruct (found line).
Qed.

Lemma parse_lines_ip_to_user (addr : string) (log_lines : list log_line)
    (self : analyzer) :
  ip_to_user (foldl (parse_line secret_to_user) self log_lines) !! addr
  = match last (map username
                  (filter (λ c, ip c = addr)
                     (omap (connection_in secret_to_user) log_lines))) with
    | Some name => Some name
    | None => ip_to_user self !! addr
    end.
Proof.
  revert self. induction log_lines as [|line log_lines IH]; intros self; [done|].
  simpl foldl. rewrite IH, parse_line_ip_to_user, omap_cons.
  destruct (connection_in secret_to_user line) as [info|]; [|done].
  rewrite filter_cons. destruct (decide (ip info = addr)) as [<-|Hne].
  - cbn [map]. rewrite last_cons, lookup_insert_eq.
    by destruct (last _).
  - by rewrite lookup_insert_ne.
Qed.

Lemma parse_line_pattern_count (self : analyzer) (line : log_line)
    (name : string) (h : Z) :
  pattern_count (parse_line secret_to_user self line) name h
  = pattern_count self name h
    + match connection_in secret_to_user line with
      | Some info =>
          if decide (username info = name ∧ hour (timestamp info) = h) then 1 else 0
      | None => 0
      end.
Proof.
  unfold pattern_count, parse_line, connection_in.
  case_decide; [lia|]. destruct (found line) as [groups|]; simpl; [|lia].
  set (info := connection_of secret_to_user line groups).
  destruct (decide (username info = name)) as [<-|Hname].
  - rewrite lookup_insert_eq. simpl.
    destruct (decide (hour (timestamp info) = h)) as [<-|Hh].
    + rewrite lookup_insert_eq, decide_True by done. done.
    + rewrite lookup_insert_ne, decide_False by tauto. simpl. lia.
  - rewrite lookup_insert_ne, decide_False by tauto. lia.
Qed.

Lemma parse_lines_pattern_count (log_lines : list log_line) (self : analyzer)
    (name : string) (h : Z) :
  pattern_count (foldl (parse_line secret_to_user) self log_lines) name h
  = pattern_count self name h
    + len (filter (λ c, username c = name ∧ hour (timestamp c) = h)
             (omap (connection_in secret_to_user) log_lines)).
Proof.
  unfold len. revert self.
  induction log_lines as [|line log_lines IH]; intros self; [simpl; lia|].
  simpl foldl. rewrite IH, parse_line_pattern_count, omap_cons.
  destruct (connection_in secret_to_user line) as [info|]; [|lia].
  rewrite filter_cons. case_decide; cbn [length]; lia.
Qed.
End ParseMaps.

(** X5: [ip_to_user] maps an address to the user of the last connection
    from it in the log, whoever used the address before, and has no entry
    for an address without a connection. *)
Theorem ip_to_user_last_wins (user_secrets : list (string * string))
    (log_lines : list log_line) (addr : string) :
  ip_to_user (parse_logs user_secrets log_lines init) !! addr
  = last (map username
            (filter (λ c, ip c = addr)
               (omap (connection_in (invert user_secrets)) log_lines))).
Proof.
  unfold parse_logs. rewrite parse_lines_ip_to_user.
  by destruct (last _).
Qed.

(** X6: [connection_patterns[name][h]] counts the connections of [name]
    whose timestamp falls in hour [h] of the day; only the hours 0 to 23
    ever get a counter above 0. *)
Theorem connection_patterns_count (user_secrets : list (string * string))
    (log_lines : list log_line) (name : string) (h : Z) :
  pattern_count (parse_logs user_secrets log_lines init) name h
  = len (filter (λ c, hour (timestamp c) = h) (events_of user_secrets log_lines name))
  ∧ (pattern_count (parse_logs user_secrets log_lines init) name h ≠ 0 → 0 ≤ h < 24).
Proof.
  assert (pattern_count (parse_logs user_secrets log_lines init) name h
          = len (filter (λ c, hour (timestamp c) = h)
                   (events_of user_secrets log_lines name))) as Hcount.
  { unfold parse_logs, events_of. rewrite parse_lines_pattern_count.
    rewrite list_filter_filter. unfold len.
    change (pattern_count init name h) with 0. rewrite Z.add_0_l. do 2 f_equal.
    apply list_filter_iff. intros c. tauto. }
  split; [exact Hcount|]. rewrite Hcount. unfold len. intros Hpos.
  destruct (filter _ _) as [|c rest] eqn:E; [done|].
  assert (c ∈ filter (λ c, hour (timestamp c) = h)
                (events_of user_secrets log_lines name)) as Hin
    by (rewrite E; constructor).
  apply list_elem_of_filter in Hin as [<- _].
  unfold hour. apply Z.mod_pos_bound. lia.
Qed.

Lemma invert_lookup (user_secrets : list (string * string)) (sec : string)
    (m : gmap string string) :
  foldl (λ m '(user, s), <[s := user]> m) m user_secrets !! sec
  = match last (map fst (filter (λ entry, entry.2 = sec) user_secrets)) with
    | Some user => Some user
    | None => m !! sec
    end.
Proof.
  revert m. induction user_secrets as [|[user s] l IH]; intros m; [done|].
  simpl foldl. rewrite IH, filter_cons. cbn [snd].
  destruct (decide (s = sec)) as [->|Hne].
  - cbn [map fst]. rewrite last_cons, lookup_insert_eq. by destruct (last _).
  - by rewrite lookup_insert_ne.
Qed.

(** X7: a secret is resolved to the user it belongs to in the
    configuration, to the last such user when several share it, and to
    the placeholder name when none has it; with pairwise different
    secrets, each configured user gets the connections made with its own
    secret. *)
Theorem resolve_configured (user_secrets : list (string * string)) (sec : string) :
  resolve (invert user_secrets) sec
  = default ("unknown_" +:+ String.substring 0 8 sec)
      (last (map fst (filter (λ entry, entry.2 = sec) user_secrets)))
  ∧ (NoDup (map snd user_secrets) →
     ∀ user, (user, sec) ∈ user_secrets → resolve (invert user_secrets) sec = user).
Proof.
  assert (resolve (invert user_secrets) sec
          = default ("unknown_" +:+ String.substring 0 8 sec)
              (last (map fst (filter (λ entry, entry.2 = sec) user_secrets)))) as Hres.
  { unfold resolve, invert. rewrite invert_lookup, lookup_empty.
    by destruct (last _). }
  split; [exact Hres|]. rewrite Hres. clear Hres.
  induction user_secrets as [|[user0 s] l IH]; intros Hnd user Hin.
  - by apply elem_of_nil in Hin.
  - simpl in Hnd. apply NoDup_cons in Hnd as [Hs Hnd].
    rewrite filter_cons. cbn [snd].
    apply elem_of_cons in Hin as [[= -> ->]|Hin].
    + rewrite decide_True by done. cbn [map fst]. rewrite last_cons.
      assert (filter (λ entry : string * string, entry.2 = s) l = []) as ->; [|done].
      destruct (filter _ l) as [|[u s'] rest] eqn:E; [done|].
      assert ((u, s') ∈ filter (λ entry : string * string, entry.2 = s) l) as Hu
        by (rewrite E; constructor).
      apply list_elem_of_filter in Hu as [Hs' Hu]. simpl in Hs'. subst s'.
      destruct Hs. apply list_elem_of_fmap. by exists (u, s).
    + rewrite decide_False; [by apply IH|].
      intros ->. destruct Hs. apply list_elem_of_fmap. by exists (user, sec).
Qed.

(** * More on the analysis *)

Lemma analyze_fold_entries
    (connections_by_user : list (string * list connection_info))
    (sharing_analysis : list (string * analysis)) :
  NoDup (map fst sharing_analysis ++ map fst connections_by_user) →
  foldl
    (λ sharing_analysis '(name, connections),
       if len connections <? 2 then sharing_analysis
       else dict_set name (analyze_user connections) sharing_analysis)
    sharing_analysis connections_by_user
  = sharing_analysis ++ omap report_entry connections_by_user.
Proof.
  revert sharing_analysis.
  induction connections_by_user as [|[k connections] l IH];
    intros sharing_analysis Hnd.
  - simpl. by rewrite app_nil_r.
  - simpl foldl. rewrite omap_cons. unfold report_entry at 1. cbn [fst snd].
    cbn [map fst] in Hnd. apply NoDup_app in Hnd as (Hacc & Hdisj & Hl).
    apply NoDup_cons in Hl as [Hk Hl].
    destruct (len connections <? 2).
    + apply IH. apply NoDup_app. split_and!; [done| |done].
      intros x Hx Hx'. apply (Hdisj x Hx). by constructor.
    + rewrite dict_set_fresh by (intros Hin; apply (Hdisj k Hin); constructor).
      rewrite IH, <- app_assoc; [done|].
      rewrite map_app. cbn [map fst]. apply NoDup_app. split_and!; [| |done].
      * apply NoDup_app. split_and!; [done| |apply NoDup_singleton].
        intros x Hx Hx'. apply list_elem_of_singleton in Hx' as ->.
        apply (Hdisj k Hx). constructor.
      * intros x Hx Hx'. apply elem_of_app in Hx as [Hx|Hx].
        -- apply (Hdisj x Hx). by constructor.
        -- apply list_elem_of_singleton in Hx as ->. done.
Qed.

Lemma report_entry_keys (connections_by_user : list (string * list connection_info)) :
  map fst (omap report_entry connections_by_user)
    `sublist_of` map fst connections_by_user.
Proof.
  induction connections_by_user as [|[k connections] l IH]; [done|].
  rewrite omap_cons. unfold report_entry at 1. cbn [fst snd].
  destruct (len connections <? 2); cbn [map fst].
  - by apply sublist_cons.
  - by apply sublist_skip.
Qed.

(** X8: the analysis holds the users of [user_connections] that have two
    connections or more, in the same order, each with the figures of its
    own connections, and no name twice. *)
Theorem analysis_entries (user_secrets : list (string * string))
    (log_lines : list log_line) :
  run user_secrets log_lines
  = omap report_entry (user_connections (parse_logs user_secrets log_lines init))
  ∧ NoDup (map fst (run user_secrets log_lines)).
Proof.
  assert (run user_secrets log_lines
          = omap report_entry
              (user_connections (parse_logs user_secrets log_lines init))) as Hrun.
  { unfold run, analyze_sharing_behavior.
    rewrite analyze_fold_entries; [done|]. apply parse_logs_NoDup. }
  split; [exact Hrun|]. rewrite Hrun.
  eapply sublist_NoDup; [apply parse_logs_NoDup|apply report_entry_keys].
Qed.

Lemma size_list_to_set_le (l : list string) :
  (size (list_to_set l : gset string) ≤ length l)%nat.
Proof.
  induction l as [|x l IH]; [done|].
  rewrite list_to_set_cons, size_union_alt, size_singleton. cbn [length].
  pose proof (subseteq_size (list_to_set l ∖ {[x]} : gset string) (list_to_set l)) as Hle.
  assert (list_to_set l ∖ {[x]} ⊆ (list_to_set l : gset string)) as Hsub
    by (intros y Hy; by apply elem_of_difference in Hy as [? _]).
  specialize (Hle Hsub). lia.
Qed.

Lemma size_list_to_set_pos (l : list string) :
  l ≠ [] → (1 ≤ size (list_to_set l : gset string))%nat.
Proof.
  destruct l as [|x l]; [done|]. intros _.
  assert (size (list_to_set (x :: l) : gset string) ≠ 0%nat); [|lia].
  apply size_non_empty_iff. intros Hempty.
  apply (not_elem_of_empty (C := gset string) x).
  rewrite <- Hempty. apply elem_of_list_to_set. constructor.
Qed.

Lemma later_count_bound {A : Type} (P : A → A → bool) (l : list A) :
  (2 * later_count P l + length l ≤ length l * length l)%nat.
Proof.
  induction l as [|a l IH]; [done|]. cbn [later_count length].
  pose proof (filter_length_le (P a) l). nia.
Qed.

Lemma pairs_need_two_addresses (connections : list connection_info) :
  later_count simultaneous connections ≠ 0%nat →
  (2 ≤ size (list_to_set (map ip connections) : gset string))%nat.
Proof.
  intros Hpairs.
  destruct (decide (2 ≤ size (list_to_set (map ip connections) : gset string))%nat)
    as [|Hsmall]; [done|].
  destruct Hpairs. apply later_count_none. intros a b Ha Hb.
  assert (ip a ∈ (list_to_set (map ip connections) : gset string)) as Hia
    by (apply elem_of_list_to_set, list_elem_of_fmap; by exists a).
  assert (ip b ∈ (list_to_set (map ip connections) : gset string)) as Hib
    by (apply elem_of_list_to_set, list_elem_of_fmap; by exists b).
  assert (size (list_to_set (map ip connections) : gset string) = 1%nat) as Hone.
  { assert (size (list_to_set (map ip connections) : gset string) ≠ 0%nat); [|lia].
    apply size_non_empty_iff. intros Hempty.
    apply (not_elem_of_empty (C := gset string) (ip a)). by rewrite <- Hempty. }
  unfold simultaneous.
  rewrite (bool_decide_eq_false_2 (ip a ≠ ip b)); [apply andb_false_r|].
  intros Hne. apply Hne. by apply (size_singleton_inv _ _ _ Hone).
Qed.

Lemma len_simultaneous_ips (connections : list connection_info) :
  len (simultaneous_ips connections)
  = Z.of_nat (later_count simultaneous connections).
Proof. unfold len. f_equal. exact (length_loops_from [] connections). Qed.

Lemma run_get_Some (user_secrets : list (string * string))
    (log_lines : list log_line) (name : string) (data : analysis) :
  dict_get name (run user_secrets log_lines) = Some data →
  data = analyze_user (events_of user_secrets log_lines name)
  ∧ 2 ≤ len (events_of user_secrets log_lines name).
Proof.
  rewrite run_get.
  destruct (Z.ltb_spec (len (events_of user_secrets log_lines name)) 2); [done|].
  by intros [= <-].
Qed.

Lemma analyze_user_bounds (events : list connection_info) :
  2 ≤ len events →
  1 ≤ unique_ips (analyze_user events) ≤ len events
  ∧ 0 ≤ simultaneous_different_ips (analyze_user events)
  ∧ 2 * simultaneous_different_ips (analyze_user events)
    ≤ len events * (len events - 1)
  ∧ (1 ≤ simultaneous_different_ips (analyze_user events) →
     2 ≤ unique_ips (analyze_user events)).
Proof.
  intros Htwo.
  cbn [analyze_user unique_ips simultaneous_different_ips].
  assert (map ip events ≠ []) as Hne by (destruct events; done).
  pose proof (size_list_to_set_le (map ip events)) as Hle.
  rewrite length_map in Hle.
  pose proof (size_list_to_set_pos (map ip events) Hne) as Hpos.
  pose proof (later_count_bound simultaneous events) as Hbound.
  pose proof (pairs_need_two_addresses events) as Hpairs.
  rewrite len_simultaneous_ips. unfold len in *.
  split_and!; lia.
Qed.

(** X9: every entry of the analysis has [total_connections] equal to the
    number of the user's connections in the log and at least 2, between 1
    and [total_connections] different addresses, at most
    [total_connections * (total_connections - 1) / 2] simultaneous pairs,
    and a score between 0 and 100. *)
Theorem analysis_figures_bounds (user_secrets : list (string * string))
    (log_lines : list log_line) (name : string) (data : analysis) :
  dict_get name (run user_secrets log_lines) = Some data →
  total_connections data = len (events_of user_secrets log_lines name)
  ∧ 2 ≤ total_connections data
  ∧ 1 ≤ unique_ips data ≤ total_connections data
  ∧ 0 ≤ simultaneous_different_ips data
  ∧ 2 * simultaneous_different_ips data
    ≤ total_connections data * (total_connections data - 1)
  ∧ 0 ≤ suspicious_score data ≤ 100.
Proof.
  intros [-> Htwo]%run_get_Some.
  destruct (analyze_user_bounds _ Htwo) as (Hips & Hsim & Hbound & _).
  change (total_connections (analyze_user (events_of user_secrets log_lines name)))
    with (len (events_of user_secrets log_lines name)).
  assert (0 ≤ suspicious_score (analyze_user (events_of user_secrets log_lines name))
          ≤ 100) as Hscore.
  { cbn [analyze_user unique_ips simultaneous_different_ips suspicious_score]
      in Hips, Hsim |- *.
    apply calculate_suspicious_score_range; lia. }
  split_and!; try done; lia.
Qed.

Lemma analysis_figures_bounds_witness :
  ∃ data,
    dict_get "alice" (run two_users log_three_addresses) = Some data
    ∧ total_connections data = 3
    ∧ 1 ≤ unique_ips data ≤ total_connections data
    ∧ 0 ≤ suspicious_score data ≤ 100.
Proof.
  destruct (dict_get "alice" (run two_users log_three_addresses)) as [data|] eqn:E;
    [|vm_compute in E; discriminate].
  exists data. split; [done|].
  destruct (analysis_figures_bounds two_users log_three_addresses "alice" data E)
    as (Htotal & _ & Hips & _ & _ & Hscore).
  split; [|done]. rewrite Htotal. vm_compute. reflexivity.
Defined.

(** X10: in the analysis, a user with a simultaneous pair has at least two
    addresses and the HIGH risk line; so has a user with four addresses or
    more; and the LOW risk line goes exactly to the users with a single
    address and at most 25 connections. *)
Theorem analysis_risk_lines (user_secrets : list (string * string))
    (log_lines : list log_line) (name : string) (data : analysis) :
  dict_get name (run user_secrets log_lines) = Some data →
  (1 ≤ simultaneous_different_ips data →
   2 ≤ unique_ips data ∧ risk_line data = HIGH_RISK)
  ∧ (4 ≤ unique_ips data → risk_line data = HIGH_RISK)
  ∧ (risk_line data = LOW_RISK
     ↔ unique_ips data = 1 ∧ total_connections data ≤ 25).
Proof.
  intros [-> Htwo]%run_get_Some.
  destruct (analyze_user_bounds _ Htwo) as (Hips & Hsim & _ & Hpairs).
  set (data := analyze_user (events_of user_secrets log_lines name)) in *.
  pose proof (risk_line_spec data) as (Hhigh & _ & Hlow).
  rewrite Hhigh, Hlow.
  change (suspicious_score data)
    with (calculate_suspicious_score (unique_ips data)
            (simultaneous_different_ips data) (total_connections data)).
  change (total_connections data)
    with (len (events_of user_secrets log_lines name)) in *.
  unfold calculate_suspicious_score.
  rewrite score_before_cap_spec. unfold spec_base.
  split_and!.
  - intros Hone. specialize (Hpairs Hone). split; [done|].
    repeat case_match; lia.
  - intros Hfour. repeat case_match; lia.
  - split.
    + intros Hlow'.
      assert (unique_ips data = 1) as Hu by (repeat case_match; lia).
      split; [done|]. repeat case_match; lia.
    + intros [Hu Ht].
      assert (simultaneous_different_ips data = 0) as ->.
      { destruct (decide (1 ≤ simultaneous_different_ips data)) as [Hone|]; [|lia].
        specialize (Hpairs Hone). lia. }
      repeat case_match; lia.
Qed.

Lemma analysis_risk_lines_witness :
  ∃ data,
    dict_get "alice" (run two_users log_three_addresses) = Some data
    ∧ risk_line data = HIGH_RISK.
Proof.
  eexists. split; [vm_compute; reflexivity|].
  lazymatch goal with
  | |- risk_line ?d = _ =>
      destruct (analysis_risk_lines two_users log_three_addresses "alice" d)
        as (Hpair & _ & _)
  end.
  - vm_compute. reflexivity.
  - apply Hpair. by vm_compute.
Defined.

(** * First and last connection *)

Lemma foldl_min_spec (t : Z) (l : list Z) :
  foldl Z.min t l ∈ t :: l ∧ ∀ x, x ∈ t :: l → foldl Z.min t l ≤ x.
Proof.
  revert t. induction l as [|y l IH]; intros t; simpl.
  - split; [constructor|]. intros x Hx. apply list_elem_of_singleton in Hx. lia.
  - destruct (IH (Z.min t y)) as [Hin Hle]. split.
    + apply elem_of_cons in Hin as [Hin|Hin].
      * rewrite Hin. destruct (Z.min_spec t y) as [[_ ->]|[_ ->]];
          [constructor|constructor; constructor].
      * by do 2 constructor.
    + intros x Hx.
      assert (foldl Z.min (Z.min t y) l ≤ Z.min t y) by (apply Hle; constructor).
      apply elem_of_cons in Hx as [->|Hx]; [lia|].
      apply elem_of_cons in Hx as [->|Hx]; [lia|].
      apply Hle. by constructor.
Qed.

Lemma foldl_max_spec (t : Z) (l : list Z) :
  foldl Z.max t l ∈ t :: l ∧ ∀ x, x ∈ t :: l → x ≤ foldl Z.max t l.
Proof.
  revert t. induction l as [|y l IH]; intros t; simpl.
  - split; [constructor|]. intros x Hx. apply list_elem_of_singleton in Hx. lia.
  - destruct (IH (Z.max t y)) as [Hin Hle]. split.
    + apply elem_of_cons in Hin as [Hin|Hin].
      * rewrite Hin. destruct (Z.max_spec t y) as [[_ ->]|[_ ->]];
          [constructor; constructor|constructor].
      * by do 2 constructor.
    + intros x Hx.
      assert (Z.max t y ≤ foldl Z.max (Z.max t y) l) by (apply Hle; constructor).
      apply elem_of_cons in Hx as [->|Hx]; [lia|].
      apply elem_of_cons in Hx as [->|Hx]; [lia|].
      apply Hle. by constructor.
Qed.

Lemma sorted_times_elem_of (events : list connection_info) (t : Z) :
  t ∈ sorted id false (map timestamp events) ↔ ∃ c, c ∈ events ∧ timestamp c = t.
Proof.
  rewrite (sorted_perm id false (map timestamp events)), list_elem_of_fmap.
  split; intros (c & H1 & H2); exists c; by split.
Qed.

(** X11: in every entry of the analysis, [first_seen] and [last_seen] are
    the earliest and the latest timestamp among the user's connections:
    both are timestamps of connections of the user, and every connection
    of the user lies between them. *)
Theorem first_and_last_seen (user_secrets : list (string * string))
    (log_lines : list log_line) (name : string) (data : analysis) :
  dict_get name (run user_secrets log_lines) = Some data →
  ∃ oldest newest,
    first_seen data = Some oldest
    ∧ last_seen data = Some newest
    ∧ (∃ c, c ∈ events_of user_secrets log_lines name ∧ timestamp c = oldest)
    ∧ (∃ c, c ∈ events_of user_secrets log_lines name ∧ timestamp c = newest)
    ∧ ∀ c, c ∈ events_of user_secrets log_lines name →
           oldest ≤ timestamp c ≤ newest.
Proof.
  intros [-> Htwo]%run_get_Some.
  set (events := events_of user_secrets log_lines name) in *.
  cbn [analyze_user first_seen last_seen].
  pose proof (sorted_times_elem_of events) as Hin.
  destruct (sorted id false (map timestamp events)) as [|t times] eqn:E.
  { destruct events as [|c events']; [done|].
    destruct (Hin (timestamp c)) as [_ Hc].
    specialize (Hc ltac:(exists c; split; [constructor|done])).
    by apply elem_of_nil in Hc. }
  destruct (foldl_min_spec t times) as [Hmin_in Hmin].
  destruct (foldl_max_spec t times) as [Hmax_in Hmax].
  exists (foldl Z.min t times), (foldl Z.max t times).
  split_and!; try done.
  - by apply Hin.
  - by apply Hin.
  - intros c Hc.
    assert (timestamp c ∈ t :: times) by (apply Hin; by exists c).
    split; [by apply Hmin|by apply Hmax].
Qed.

Lemma first_and_last_seen_witness :
  ∃ data oldest newest,
    dict_get "alice" (run two_users log_two_apart) = Some data
    ∧ first_seen data = Some oldest
    ∧ last_seen data = Some newest
    ∧ oldest ≤ timestamp (alice_at 100 "1.1.1.1") ≤ newest.
Proof.
  destruct (dict_get "alice" (run two_users log_two_apart)) as [data|] eqn:E;
    [|vm_compute in E; discriminate].
  destruct (first_and_last_seen two_users log_two_apart "alice" data E)
    as (oldest & newest & Hfirst & Hlast & _ & _ & Hall).
  exists data, oldest, newest.
  split; [done|]. split; [done|]. split; [done|]. apply Hall.
  replace (events_of two_users log_two_apart "alice")
    with [alice_at 0 "1.1.1.1"; alice_at 100 "1.1.1.1"]
    by (vm_compute; reflexivity).
  by do 2 constructor.
Defined.

Lemma sorted_head_is_min (t : Z) (l : list Z) :
  StronglySorted (λ a b, id a ≤ id b) (t :: l) → foldl Z.min t l = t.
Proof.
  induction l as [|x l IH]; intros Hs; [done|].
  apply StronglySorted_inv in Hs as [Hs Hall].
  apply Forall_cons in Hall as [Htx Hall]. unfold id in Htx.
  simpl. rewrite Z.min_l by done. apply IH.
  apply StronglySorted_inv in Hs as [Hs _]. by constructor.
Qed.

Lemma sorted_last_is_max (t : Z) (l : list Z) :
  StronglySorted (λ a b, id a ≤ id b) (t :: l) →
  last (t :: l) = Some (foldl Z.max t l).
Proof.
  revert t. induction l as [|x l IH]; intros t Hs; [done|].
  apply StronglySorted_inv in Hs as [Hs Hall].
  apply Forall_cons in Hall as [Htx Hall]. unfold id in Htx.
  rewrite last_cons_cons. simpl foldl. rewrite Z.max_r by done. by apply IH.
Qed.

Lemma Qlt_bool_total_seconds (delta : Z) :
  Qlt_bool 0 (total_seconds delta) = (0 <? delta).
Proof.
  unfold Qlt_bool, total_seconds, Qle_bool. cbn [Qnum Qden].
  destruct (Z.leb_spec (delta * 1) (0 * Z.pos 1000000));
    destruct (Z.ltb_spec 0 delta); simpl; try done; lia.
Qed.

Lemma avg_interval_sorted (events : list connection_info) (oldest newest : Z) :
  2 ≤ len events →
  first_seen (analyze_user events) = Some oldest →
  last_seen (analyze_user events) = Some newest →
  avg_connection_interval (analyze_user events)
  = if 0 <? newest - oldest
    then (total_seconds (newest - oldest) / inject_Z (len events))%Q
    else 0%Q.
Proof.
  intros Htwo. cbn [analyze_user first_seen last_seen avg_connection_interval].
  pose proof (sort_ascending_sorted id (map timestamp events)) as Hs.
  pose proof (Permutation_length (sorted_perm id false (map timestamp events))) as Hlen.
  rewrite length_map in Hlen.
  change (sorted id false (map timestamp events))
    with (sort_ascending id (map timestamp events)) in *.
  destruct (sort_ascending id (map timestamp events)) as [|t times] eqn:E.
  { unfold len in Htwo. simpl in Hlen. lia. }
  cbn [min_or_none max_or_none]. intros [= <-] [= <-].
  unfold avg_interval.
  assert (len (t :: times) = len events) as -> by (unfold len; by rewrite Hlen).
  destruct (Z.ltb_spec 1 (len events)); [|lia].
  rewrite (sorted_last_is_max t times Hs), (sorted_head_is_min t times Hs).
  cbn [head]. by rewrite Qlt_bool_total_seconds.
Qed.

(** X12: in every entry of the analysis, [avg_connection_interval] is 0
    when all the connections of the user carry the same timestamp;
    otherwise it is positive and at most the time, in seconds, from
    [first_seen] to [last_seen]. *)
Theorem avg_interval_within_span (user_secrets : list (string * string))
    (log_lines : list log_line) (name : string) (data : analysis)
    (oldest newest : Z) :
  dict_get name (run user_secrets log_lines) = Some data →
  first_seen data = Some oldest →
  last_seen data = Some newest →
  (newest = oldest → avg_connection_interval data = 0%Q)
  ∧ (oldest < newest →
     (0 < avg_connection_interval data)%Q
     ∧ (avg_connection_interval data <= total_seconds (newest - oldest))%Q).
Proof.
  intros [-> Htwo]%run_get_Some Hfirst Hlast.
  rewrite (avg_interval_sorted _ oldest newest Htwo Hfirst Hlast).
  split.
  - intros ->. by rewrite Z.sub_diag.
  - intros Hlt. destruct (Z.ltb_spec 0 (newest - oldest)); [|lia].
    assert (0 < inject_Z (len (events_of user_secrets log_lines name)))%Q as Hn
      by (rewrite <- (Zlt_Qlt 0); lia).
    assert (0 < total_seconds (newest - oldest))%Q as Hspan
      by (unfold total_seconds, Qlt; simpl; lia).
    split.
    + apply Qlt_shift_div_l; [done|]. by rewrite Qmult_0_l.
    + apply Qle_shift_div_r; [done|].
      rewrite <- (Qmult_1_r (total_seconds (newest - oldest))) at 1.
      apply Qmult_le_l; [done|].
      rewrite <- (Zle_Qle 1). lia.
Qed.

Lemma avg_interval_within_span_witness :
  ∃ data,
    dict_get "alice" (run two_users log_two_apart) = Some data
    ∧ (0 < avg_connection_interval data)%Q
    ∧ (avg_connection_interval data <= total_seconds (seconds 100 - seconds 0))%Q.
Proof.
  eexists. split; [vm_compute; reflexivity|].
  lazymatch goal with
  | |- (0 < avg_connection_interval ?d)%Q ∧ _ =>
      destruct (avg_interval_within_span two_users log_two_apart "alice" d
                  (seconds 0) (seconds 100)) as [_ Hpos]
  end.
  - vm_compute. reflexivity.
  - vm_compute. reflexivity.
  - vm_compute. reflexivity.
  - apply Hpos. by vm_compute.
Defined.



(** * Counters *)

Lemma dict_set_keys {V : Type} (k : string) (v : V) (d : list (string * V)) :
  map fst (dict_set k v d)
  = if decide (k ∈ map fst d) then map fst d else map fst d ++ [k].
Proof.
  induction d as [|[k0 v0] d IH]; cbn [dict_set].
  - rewrite decide_False; [done|]. apply not_elem_of_nil.
  - destruct (decide (k = k0)) as [->|Hne]; cbn [map fst].
    + rewrite decide_True; [done|]. constructor.
    + rewrite IH. destruct (decide (k ∈ map fst d)) as [Hin|Hnin].
      * rewrite decide_True; [done|]. by constructor.
      * rewrite decide_False; [done|]. rewrite not_elem_of_cons. tauto.
Qed.

Lemma dict_set_total_count (k : string) (d : list (string * Z)) :
  total_count (dict_set k (default 0 (dict_get k d) + 1) d) = total_count d + 1.
Proof.
  induction d as [|[k0 v0] d IH]; cbn [dict_set dict_get]; [done|].
  destruct (decide (k = k0)) as [->|Hne]; cbn [total_count foldr snd default].
  - unfold id. lia.
  - fold (total_count (dict_set k (default 0 (dict_get k d) + 1) d)).
    fold (total_count d). rewrite IH. lia.
Qed.

Section CounterFacts.
Let step : list (string * Z) → string → list (string * Z) :=
  λ d key, dict_set key (default 0 (dict_get key d) + 1) d.

Lemma counter_fold_get (key : string) (keys : list string) (d : list (string * Z)) :
  dict_get key (foldl step d keys)
  = if decide (key ∈ keys)
    then Some (default 0 (dict_get key d) + occurrences key keys)
    else dict_get key d.
Proof.
  unfold occurrences, len. revert d.
  induction keys as [|k keys IH]; intros d.
  - cbn [foldl]. rewrite decide_False; [done|]. apply not_elem_of_nil.
  - cbn [foldl]. rewrite IH. unfold step. rewrite dict_get_set, filter_cons.
    destruct (decide (key = k)) as [->|Hne].
    + rewrite (decide_True (P := k ∈ k :: keys)) by constructor.
      rewrite (decide_True (P := k = k)) by done. cbn [default length].
      destruct (decide (k ∈ keys)) as [Hin|Hnin]; [f_equal; unfold id; lia|].
      assert (filter (λ k0, k0 = k) keys = []) as ->.
      { destruct (filter _ keys) as [|k1 rest] eqn:E; [done|].
        assert (k1 ∈ filter (λ k0, k0 = k) keys) as Hk1 by (rewrite E; constructor).
        apply list_elem_of_filter in Hk1 as [-> Hk1]. done. }
      f_equal; simpl; lia.
    + rewrite (decide_False (P := k = key)) by done.
      destruct (decide (key ∈ keys)) as [Hin|Hnin].
      * rewrite decide_True by (by constructor). done.
      * rewrite decide_False; [done|]. rewrite not_elem_of_cons. tauto.
Qed.

Lemma counter_fold_keys (keys : list string) (d : list (string * Z)) :
  map fst (foldl step d keys)
  = foldl (λ seen name, if decide (name ∈ seen) then seen else seen ++ [name])
      (map fst d) keys.
Proof.
  revert d. induction keys as [|k keys IH]; intros d; [done|].
  cbn [foldl]. rewrite IH. unfold step. by rewrite dict_set_keys.
Qed.

Lemma counter_fold_NoDup (keys : list string) (d : list (string * Z)) :
  NoDup (map fst d) → NoDup (map fst (foldl step d keys)).
Proof.
  revert d. induction keys as [|k keys IH]; intros d Hnd; [done|].
  cbn [foldl]. apply IH. unfold step. rewrite dict_set_keys.
  case_decide; [done|]. apply NoDup_app. split_and!; [done| |apply NoDup_singleton].
  intros x Hx Hx'. apply list_elem_of_singleton in Hx' as ->. done.
Qed.

Lemma counter_fold_total (keys : list string) (d : list (string * Z)) :
  total_count (foldl step d keys) = total_count d + len keys.
Proof.
  unfold len. revert d. induction keys as [|k keys IH]; intros d; [simpl; lia|].
  cbn [foldl]. rewrite IH. unfold step. rewrite dict_set_total_count.
  cbn [length]. lia.
Qed.
End CounterFacts.

Lemma counter_get (key : string) (keys : list string) :
  dict_get key (counter keys)
  = if decide (key ∈ keys) then Some (occurrences key keys) else None.
Proof.
  unfold counter. rewrite counter_fold_get. simpl.
  case_decide; [f_equal; lia|done].
Qed.

Lemma counter_NoDup (keys : list string) : NoDup (map fst (counter keys)).
Proof. apply counter_fold_NoDup. constructor. Qed.

Lemma occurrences_pos (key : string) (keys : list string) :
  key ∈ keys → 1 ≤ occurrences key keys.
Proof.
  intros Hin. unfold occurrences, len.
  assert (key ∈ filter (λ k, k = key) keys) as Hf by (by apply list_elem_of_filter).
  destruct (filter _ keys); [by apply elem_of_nil in Hf|]. simpl. lia.
Qed.

Lemma counter_elem_of (key : string) (n : Z) (keys : list string) :
  (key, n) ∈ counter keys ↔ key ∈ keys ∧ n = occurrences key keys.
Proof.
  split.
  - intros Hin. apply dict_get_elem_of in Hin; [|apply counter_NoDup].
    rewrite counter_get in Hin. case_decide; [|done]. by injection Hin as <-.
  - intros [Hin ->].
    pose proof (counter_get key keys) as Hget. rewrite decide_True in Hget by done.
    clear Hin. revert Hget. generalize (occurrences key keys) (counter keys).
    intros v d. induction d as [|[k0 v0] d IH]; simpl; [done|].
    case_decide as Hk.
    + intros [= ->]. subst. constructor.
    + intros Hget. constructor. by apply IH.
Qed.

(** * The monitor *)

Section MonitorFacts.
Import Monitor.

Lemma count_fold_counts (label : Z) (connections : list connection)
    (d : list (string * Z)) (m : gmap string (gset Z)) :
  (foldl (count_connection label) (d, m) connections).1
  = foldl (λ d key, dict_set key (default 0 (dict_get key d) + 1) d) d
      (map remote_ip connections).
Proof.
  revert d m. induction connections as [|c connections IH]; intros d m; [done|].
  cbn [foldl map]. unfold count_connection at 2. cbn [fst snd]. apply IH.
Qed.

Lemma count_fold_user_ips (label : Z) (connections : list connection)
    (d : list (string * Z)) (m : gmap string (gset Z)) (addr : string) :
  (foldl (count_connection label) (d, m) connections).2 !! addr
  = if decide (addr ∈ map remote_ip connections)
    then Some (default ∅ (m !! addr) ∪ {[label]})
    else m !! addr.
Proof.
  revert d m. induction connections as [|c connections IH]; intros d m.
  - cbn [foldl map]. rewrite decide_False; [done|]. apply not_elem_of_nil.
  - cbn [foldl map]. unfold count_connection at 2. cbn [fst snd]. rewrite IH.
    destruct (decide (remote_ip c = addr)) as [->|Hne].
    + rewrite lookup_insert_eq. cbn [default]. unfold id.
      destruct (decide (addr ∈ addr :: map remote_ip connections))
        as [_|Hnin]; [|by destruct Hnin; constructor].
      case_decide; [|done]. f_equal.
      rewrite <- (assoc_L (∪)). f_equal. apply (idemp_L (∪)).
    + rewrite lookup_insert_ne by done.
      destruct (decide (addr ∈ map remote_ip connections)) as [Hin|Hnin],
        (decide (addr ∈ remote_ip c :: map remote_ip connections)) as [Hin'|Hnin'];
        try done.
      * destruct Hnin'. by constructor.
      * apply elem_of_cons in Hin' as [?|?]; [by subst|done].
Qed.

Lemma detect_findings (current_time : Z) (ips : gmap string (gset Z))
    (found : list activity) (item : string * Z) :
  detect current_time ips found item = found ++ findings current_time ips item.
Proof.
  unfold detect, findings.
  destruct (3 <? item.2), (10 <? Z.of_nat (size (default ∅ (ips !! item.1))));
    by rewrite <- ?app_assoc, ?app_nil_r.
Qed.

Lemma detect_fold (current_time : Z) (ips : gmap string (gset Z))
    (found : list activity) (items : list (string * Z)) :
  foldl (detect current_time ips) found items
  = found ++ flat_map (findings current_time ips) items.
Proof.
  revert found. induction items as [|item items IH]; intros found.
  - simpl. by rewrite app_nil_r.
  - cbn [foldl flat_map]. by rewrite IH, detect_findings, <- app_assoc.
Qed.

Lemma analyze_user_behavior_activity (self : monitor)
    (connections : list connection) (current_time : Z) :
  suspicious_activity (analyze_user_behavior self connections current_time)
  = suspicious_activity self
    ++ flat_map
         (findings current_time
            (user_ips (analyze_user_behavior self connections current_time)))
         (counter (map remote_ip connections)).
Proof.
  unfold analyze_user_behavior. cbn [suspicious_activity user_ips].
  by rewrite detect_fold, count_fold_counts.
Qed.

Lemma analyze_user_behavior_user_ips (self : monitor)
    (connections : list connection) (current_time : Z) (addr : string) :
  user_ips (analyze_user_behavior self connections current_time) !! addr
  = if decide (addr ∈ map remote_ip connections)
    then Some (default ∅ (user_ips self !! addr) ∪ {[minute current_time]})
    else user_ips self !! addr.
Proof.
  unfold analyze_user_behavior. cbn [user_ips]. apply count_fold_user_ips.
Qed.

Lemma findings_elem_of (current_time : Z) (ips : gmap string (gset Z))
    (items : list (string * Z)) (a : activity) :
  a ∈ flat_map (findings current_time ips) items
  ↔ ∃ item, item ∈ items
      ∧ ((a = multiple_connections item.1 item.2 current_time ∧ 3 < item.2)
         ∨ (a = frequent_connections item.1
                  (Z.of_nat (size (default ∅ (ips !! item.1)))) current_time
            ∧ 10 < Z.of_nat (size (default ∅ (ips !! item.1))))).
Proof.
  rewrite list_elem_of_In, in_flat_map. split.
  - intros (item & Hitem & Ha). exists item. rewrite list_elem_of_In. split; [done|].
    unfold findings in Ha. apply in_app_or in Ha as [Ha|Ha].
    + destruct (Z.ltb_spec 3 item.2); [|done].
      destruct Ha as [<-|[]]. by left.
    + destruct (Z.ltb_spec 10 (Z.of_nat (size (default ∅ (ips !! item.1))))); [|done].
      destruct Ha as [<-|[]]. by right.
  - intros (item & Hitem & Ha). exists item. rewrite <- list_elem_of_In. split; [done|].
    unfold findings. apply in_or_app. destruct Ha as [[-> Hlt]|[-> Hlt]].
    + left. apply Z.ltb_lt in Hlt. rewrite Hlt. by left.
    + right. apply Z.ltb_lt in Hlt. rewrite Hlt. by left.
Qed.
End MonitorFacts.

Section MonitorBehaviour.
Import Monitor.

Lemma findings_ip (current_time : Z) (ips : gmap string (gset Z))
    (item : string * Z) (a : activity) :
  a ∈ findings current_time ips item →
  activity_ip a = item.1 ∧ activity_timestamp a = current_time.
Proof.
  unfold findings. rewrite elem_of_app. intros [Ha|Ha].
  - destruct (3 <? item.2); [|by apply elem_of_nil in Ha].
    by apply list_elem_of_singleton in Ha as ->.
  - destruct (10 <? _); [|by apply elem_of_nil in Ha].
    by apply list_elem_of_singleton in Ha as ->.
Qed.

Lemma findings_NoDup (current_time : Z) (ips : gmap string (gset Z))
    (item : string * Z) :
  NoDup (findings current_time ips item).
Proof.
  unfold findings. destruct (3 <? item.2), (10 <? _); cbn [app].
  - apply NoDup_cons. split; [|apply NoDup_singleton].
    by intros ?%list_elem_of_singleton.
  - apply NoDup_singleton.
  - apply NoDup_singleton.
  - apply NoDup_nil_2.
Qed.

Lemma flat_map_findings_NoDup (current_time : Z) (ips : gmap string (gset Z))
    (items : list (string * Z)) :
  NoDup (map fst items) → NoDup (flat_map (findings current_time ips) items).
Proof.
  induction items as [|item items IH]; cbn [map flat_map]; [constructor|].
  rewrite NoDup_cons. intros [Hfresh Hnd]. apply NoDup_app.
  split_and!; [apply findings_NoDup| |by apply IH].
  intros a Ha Hrest. apply findings_ip in Ha as [Hip _].
  apply findings_elem_of in Hrest as (other & Hother & Hcase).
  apply Hfresh. rewrite <- Hip.
  replace (activity_ip a) with other.1 by (by destruct Hcase as [[-> _]|[-> _]]).
  apply list_elem_of_fmap. by exists other.
Qed.
End MonitorBehaviour.

Lemma occurrences_elem_of (key : string) (keys : list string) :
  0 < occurrences key keys → key ∈ keys.
Proof.
  unfold occurrences, len. intros Hpos.
  destruct (filter (λ k, k = key) keys) as [|k rest] eqn:Hf; [simpl in Hpos; lia|].
  assert (k ∈ filter (λ k, k = key) keys) as Hin by (rewrite Hf; constructor).
  by apply list_elem_of_filter in Hin as [-> ?].
Qed.

Lemma counter_keys_elem_of (key : string) (keys : list string) :
  key ∈ map fst (counter keys) ↔ key ∈ keys.
Proof.
  rewrite list_elem_of_fmap. split.
  - intros ([k n] & -> & Hin). by apply counter_elem_of in Hin as [? _].
  - intros Hin. exists (key, occurrences key keys). split; [done|].
    by apply counter_elem_of.
Qed.

Lemma counter_length (keys : list string) :
  length (counter keys) = size (list_to_set keys : gset string).
Proof.
  rewrite <- (length_map fst (counter keys)).
  rewrite <- (size_list_to_set (C := gset string)) by apply counter_NoDup.
  f_equal. apply set_eq. intros key.
  by rewrite !elem_of_list_to_set, counter_keys_elem_of.
Qed.

Lemma counter_total (keys : list string) : total_count (counter keys) = len keys.
Proof. unfold counter. by rewrite counter_fold_total. Qed.

Section MonitorRounds.
Import Monitor.

Lemma user_ips_grow (self : monitor) (connections : list connection)
    (current_time : Z) (addr : string) :
  default ∅ (user_ips self !! addr)
    ⊆ default ∅ (user_ips (analyze_user_behavior self connections current_time)
                 !! addr)
  ∧ (size (default ∅ (user_ips (analyze_user_behavior self connections current_time)
                       !! addr))
     ≤ size (default ∅ (user_ips self !! addr)) + 1)%nat.
Proof.
  rewrite analyze_user_behavior_user_ips. case_decide; [|split; [done|lia]].
  cbn [default from_option id]. split; [apply union_subseteq_l|].
  rewrite size_union_alt. apply Nat.add_le_mono_l.
  etrans; [apply subseteq_size, subseteq_difference_l; reflexivity|].
  by rewrite size_singleton.
Qed.

Lemma monitor_continuous_snoc (self : monitor) (readings : list reading)
    (r : reading) :
  (monitor_continuous self (readings ++ [r])).1
  = analyze_user_behavior (monitor_continuous self readings).1
      match lsof r with [] => netstat r | _ => lsof r end (analysis_time r).
Proof. unfold monitor_continuous. by rewrite foldl_app. Qed.

Lemma rounds_invariant (readings : list reading) :
  let self := (monitor_continuous init readings).1 in
  (∀ addr, Z.of_nat (size (default ∅ (user_ips self !! addr))) ≤ len readings)
  ∧ Forall (above_threshold (len readings)) (suspicious_activity self).
Proof.
  induction readings as [|r readings IH] using rev_ind.
  - split; [|constructor]. intros addr. cbn. by rewrite lookup_empty.
  - destruct IH as [IHsize IHacts]. cbn zeta. rewrite monitor_continuous_snoc.
    set (self := (monitor_continuous init readings).1) in *.
    set (active := match lsof r with [] => netstat r | _ => lsof r end).
    assert (len (readings ++ [r]) = len readings + 1) as Hlen.
    { unfold len. rewrite length_app. simpl. lia. }
    assert (∀ addr,
      Z.of_nat (size (default ∅ (user_ips
        (analyze_user_behavior self active (analysis_time r)) !! addr)))
      ≤ len (readings ++ [r])) as Hsize.
    { intros addr. specialize (IHsize addr).
      pose proof (user_ips_grow self active (analysis_time r) addr) as [_ Hle].
      lia. }
    split; [done|].
    rewrite analyze_user_behavior_activity. apply Forall_app. split.
    + eapply Forall_impl; [exact IHacts|].
      intros [] Ha; cbn [above_threshold] in *; lia.
    + apply Forall_forall. intros a Ha.
      apply findings_elem_of in Ha as (item & _ & [[-> Hlt]|[-> Hlt]]);
        cbn [above_threshold]; [done|].
      split; [done|apply Hsize].
Qed.
End MonitorRounds.

Section MonitorProperties.
Import Monitor.

(** X14: [analyze_user_behavior] only appends to [suspicious_activity] and
    leaves [connection_history] alone: the old records stay, in order, in
    front of the new ones; every new record carries the time of the call
    and the address of one of the connections; and no record is added
    twice. *)
Theorem suspicious_activity_append_only (self : monitor)
    (connections : list connection) (current_time : Z) :
  let after := analyze_user_behavior self connections current_time in
  connection_history after = connection_history self
  ∧ ∃ added,
      suspicious_activity after = suspicious_activity self ++ added
      ∧ NoDup added
      ∧ Forall (λ a, activity_timestamp a = current_time
                     ∧ activity_ip a ∈ map remote_ip connections) added.
Proof.
  intros after. split; [done|].
  eexists. split; [apply analyze_user_behavior_activity|]. split.
  - apply flat_map_findings_NoDup, counter_NoDup.
  - apply Forall_forall. intros a Ha.
    apply list_elem_of_In, in_flat_map in Ha as (item & Hitem & Ha).
    apply list_elem_of_In in Hitem, Ha.
    apply findings_ip in Ha as [-> ->]. split; [done|].
    destruct item as [addr n]. by apply counter_elem_of in Hitem as [? _].
Qed.

(** X15: a call of [analyze_user_behavior] adds a [multiple_connections]
    record for an address exactly when more than three of the connections
    come from it; the record holds that number of connections and the time
    of the call. *)
Theorem multiple_connections_recorded (self : monitor)
    (connections : list connection) (current_time : Z)
    (addr : string) (n t : Z) :
  multiple_connections addr n t
    ∈ drop (length (suspicious_activity self))
        (suspicious_activity (analyze_user_behavior self connections current_time))
  ↔ n = occurrences addr (map remote_ip connections) ∧ 3 < n ∧ t = current_time.
Proof.
  rewrite analyze_user_behavior_activity, drop_app_length, findings_elem_of.
  split.
  - intros ([key m] & Hitem & [[Heq Hlt]|[Heq _]]); [|done].
    cbn [fst snd] in *. injection Heq as -> -> ->.
    by apply counter_elem_of in Hitem as [_ ->].
  - intros (-> & Hlt & ->).
    exists (addr, occurrences addr (map remote_ip connections)). split.
    + apply counter_elem_of. split; [|done]. apply occurrences_elem_of. lia.
    + by left.
Qed.

(** X16: a call of [analyze_user_behavior] adds a [frequent_connections]
    record for an address exactly when one of the connections comes from it
    and the address has been seen in more than ten different minutes, the
    minute of the call included; the record holds that number of minutes
    and the time of the call. *)
Theorem frequent_connections_recorded (self : monitor)
    (connections : list connection) (current_time : Z)
    (addr : string) (k t : Z) :
  frequent_connections addr k t
    ∈ drop (length (suspicious_activity self))
        (suspicious_activity (analyze_user_behavior self connections current_time))
  ↔ addr ∈ map remote_ip connections
    ∧ k = Z.of_nat (size (default ∅ (user_ips self !! addr)
                          ∪ {[minute current_time]}))
    ∧ 10 < k ∧ t = current_time.
Proof.
  rewrite analyze_user_behavior_activity, drop_app_length, findings_elem_of.
  split.
  - intros ([key m] & Hitem & [[Heq _]|[Heq Hlt]]); [done|].
    cbn [fst snd] in *. apply counter_elem_of in Hitem as [Hin _].
    rewrite analyze_user_behavior_user_ips, decide_True in Heq, Hlt by done.
    cbn [default] in Heq, Hlt. by injection Heq as -> -> ->.
  - intros (Hin & -> & Hlt & ->).
    exists (addr, occurrences addr (map remote_ip connections)). split.
    + by apply counter_elem_of.
    + right. cbn [fst snd].
      rewrite analyze_user_behavior_user_ips, decide_True by done. done.
Qed.

(** X17: [analyze_user_behavior] adds the minute of the call to the
    connection times of every address among the connections and leaves the
    entries of all other addresses as they were; no connection time is
    ever removed, and a set grows by at most one element per call. *)
Theorem user_ips_updated (self : monitor) (connections : list connection)
    (current_time : Z) (addr : string) :
  let old := user_ips self in
  let new := user_ips (analyze_user_behavior self connections current_time) in
  (if decide (addr ∈ map remote_ip connections)
   then new !! addr = Some (default ∅ (old !! addr) ∪ {[minute current_time]})
   else new !! addr = old !! addr)
  ∧ default ∅ (old !! addr) ⊆ default ∅ (new !! addr)
  ∧ (size (default ∅ (new !! addr)) ≤ size (default ∅ (old !! addr)) + 1)%nat.
Proof.
  intros old new. unfold new, old. split; [|apply user_ips_grow].
  rewrite analyze_user_behavior_user_ips. by case_decide.
Qed.
End MonitorProperties.

Section MonitorReports.
Import Monitor.

Lemma recent_suspicious_sublist (clock : nat → Z) (found : list activity) :
  recent_suspicious clock found `sublist_of` found.
Proof.
  revert clock. induction found as [|a found IH]; intros clock; [done|].
  cbn [recent_suspicious]. destruct (_ <? _).
  - apply sublist_skip, IH.
  - apply sublist_cons, IH.
Qed.

Lemma recent_suspicious_since (clock : nat → Z) (found : list activity)
    (start : Z) :
  (∀ i, start ≤ clock i) →
  Forall (λ a, start - 5 * 60000000 < activity_timestamp a)
    (recent_suspicious clock found).
Proof.
  revert clock. induction found as [|a found IH]; intros clock Hclock; [constructor|].
  cbn [recent_suspicious].
  destruct (Z.ltb_spec (clock 0%nat - 5 * 60000000) (activity_timestamp a)).
  - constructor; [specialize (Hclock 0%nat); lia|]. apply IH. intros i. apply Hclock.
  - apply IH. intros i. apply Hclock.
Qed.

Lemma recent_suspicious_app (clock : nat → Z) (older newer : list activity) :
  recent_suspicious clock (older ++ newer)
  = recent_suspicious clock older
    ++ recent_suspicious (λ i, clock (length older + i)%nat) newer.
Proof.
  revert clock. induction older as [|a older IH]; intros clock; [done|].
  cbn [app recent_suspicious]. rewrite IH. by destruct (_ <? _).
Qed.

Lemma length_last_items {A : Type} (n : nat) (l : list A) :
  (length (last_items n l) ≤ n)%nat.
Proof. unfold last_items. rewrite length_drop. lia. Qed.

Lemma filter_count_fmap (n : Z) (items : list (string * Z)) :
  filter (λ line : bool * string * Z, line.2 = n)
    (map (λ item : string * Z, (2 <? item.2, item.1, item.2)) items)
  = map (λ item : string * Z, (2 <? item.2, item.1, item.2))
      (filter (λ item : string * Z, item.2 = n) items).
Proof.
  induction items as [|item items IH]; [done|].
  cbn [map]. rewrite !filter_cons. cbn [snd].
  case_decide; cbn [map]; by rewrite IH.
Qed.

(** X18: once an address has been analysed in some minute, analysing it
    again within the same minute adds no connection time: [user_ips] stays
    as the first call left it. *)
Theorem same_minute_adds_nothing (self : monitor)
    (first second : list connection) (t1 t2 : Z) :
  minute t1 = minute t2 →
  map remote_ip second ⊆ map remote_ip first →
  user_ips (analyze_user_behavior (analyze_user_behavior self first t1) second t2)
  = user_ips (analyze_user_behavior self first t1).
Proof.
  intros Hminute Hsub. apply map_eq. intros addr.
  rewrite !analyze_user_behavior_user_ips.
  destruct (decide (addr ∈ map remote_ip second)) as [Hin|Hnin]; [|done].
  rewrite decide_True by (by apply Hsub). cbn [default from_option id].
  rewrite <- Hminute. f_equal.
  rewrite <- (assoc_L (∪)). f_equal. apply (idemp_L (∪)).
Qed.

Lemma same_minute_adds_nothing_witness :
  minute 0 = minute 59999999
  ∧ user_ips (analyze_user_behavior
                (analyze_user_behavior init four_from_one 0)
                [conn_from "2.2.2.2"] 59999999)
    = user_ips (analyze_user_behavior init four_from_one 0).
Proof.
  split; [reflexivity|].
  apply (same_minute_adds_nothing init four_from_one [conn_from "2.2.2.2"]
           0 59999999); [reflexivity|].
  intros addr Hin. apply list_elem_of_singleton in Hin as ->.
  apply list_elem_of_In. simpl. tauto.
Defined.

(** X19: in a monitor started afresh and run for any number of rounds of
    the loop of [monitor_continuous], every [multiple_connections] record
    holds a count above 3 and every [frequent_connections] record a number
    of connection times above 10 and at most the number of rounds done; so
    the first ten rounds record no [frequent_connections] at all. *)
Theorem records_above_threshold (readings : list reading) :
  let self := (monitor_continuous init readings).1 in
  Forall (above_threshold (len readings)) (suspicious_activity self)
  ∧ (len readings ≤ 10 →
     Forall (λ a, ∃ addr n t, a = multiple_connections addr n t ∧ 3 < n)
       (suspicious_activity self)).
Proof.
  intros self. pose proof (rounds_invariant readings) as [_ Hacts].
  split; [done|]. intros Hten.
  eapply Forall_impl; [exact Hacts|].
  intros [addr n t|addr k t]; cbn [above_threshold]; intros Ha.
  - by exists addr, n, t.
  - lia.
Qed.

(** X20: the statistics of [get_connection_stats] are taken from the
    connections of the process when there are any and from those of
    netstat otherwise, and the monitor is updated by analysing the same
    list. [connections_by_ip] lists each remote address once, in the order
    of first appearance, with the number of connections from it (at least
    one); the counts add up to [total_connections], and [unique_users] is
    the number of addresses listed, at most [total_connections]. *)
Theorem connection_stats_counts (self : monitor)
    (connections process_connections : list connection) (current_time now : Z) :
  let result := get_connection_stats self connections process_connections
                  current_time now in
  let active := match process_connections with
                | [] => connections
                | _ => process_connections
                end in
  result.1 = analyze_user_behavior self active current_time
  ∧ active_connections result.2 = active
  ∧ total_connections result.2 = len active
  ∧ map fst (connections_by_ip result.2)
    = first_occurrences (map remote_ip active)
  ∧ NoDup (map fst (connections_by_ip result.2))
  ∧ (∀ addr n, (addr, n) ∈ connections_by_ip result.2
               ↔ addr ∈ map remote_ip active
                 ∧ n = occurrences addr (map remote_ip active))
  ∧ Forall (λ item, 1 ≤ item.2) (connections_by_ip result.2)
  ∧ total_count (connections_by_ip result.2) = total_connections result.2
  ∧ unique_users result.2 = len (connections_by_ip result.2)
  ∧ unique_users result.2 ≤ total_connections result.2.
Proof.
  intros result active. unfold result, get_connection_stats.
  fold active. cbn [fst snd active_connections total_connections
    connections_by_ip unique_users].
  split_and!; try done.
  - unfold counter, first_occurrences. by rewrite counter_fold_keys.
  - apply counter_NoDup.
  - intros addr n. apply counter_elem_of.
  - apply Forall_forall. intros [addr n] Hin.
    apply counter_elem_of in Hin as [Hin ->]. by apply occurrences_pos.
  - rewrite counter_total. unfold len. by rewrite length_map.
  - unfold len. by rewrite counter_length.
  - pose proof (size_list_to_set_le (map remote_ip active)) as Hle.
    unfold len in *. rewrite length_map in Hle. lia.
Qed.

(** X21: [print_stats] prints one line for every entry of
    [connections_by_ip], the largest count first; addresses with equal
    counts stay in the order of the dictionary; the warning sign is put on
    exactly the lines whose count is above 2. *)
Theorem print_stats_lines (self : monitor) (result : stats) (clock : nat → Z) :
  let lines := (print_stats self result clock).1 in
  map (λ line : bool * string * Z, (line.1.2, line.2)) lines
    ≡ₚ connections_by_ip result
  ∧ StronglySorted (λ a b : bool * string * Z, b.2 ≤ a.2) lines
  ∧ Forall (λ line : bool * string * Z, line.1.1 = true ↔ 2 < line.2) lines
  ∧ ∀ n, filter (λ line : bool * string * Z, line.2 = n) lines
         = map (λ item : string * Z, (2 <? item.2, item.1, item.2))
             (filter (λ item : string * Z, item.2 = n) (connections_by_ip result)).
Proof.
  intros lines. unfold lines, print_stats. cbn [fst]. split_and!.
  - rewrite map_map. cbn [fst snd].
    rewrite (map_ext _ id) by (by intros []). rewrite map_id. apply sorted_perm.
  - eapply StronglySorted_fmap; [|apply sorted_reverse_descending].
    by intros x y Hxy.
  - apply Forall_forall. intros line Hin.
    apply list_elem_of_fmap in Hin as (item & -> & _). cbn [fst snd].
    apply Z.ltb_lt.
  - intros n. by rewrite filter_count_fmap, sorted_stable.
Qed.

(** X22: of the suspicious activities [print_stats] shows at most five;
    they are the last ones among those it found recent, in the order they
    were recorded, all of them when there are five or fewer; and none of
    them is older than five minutes before the moment printing started. *)
Theorem print_stats_shows_recent (self : monitor) (result : stats)
    (clock : nat → Z) (start : Z) :
  (∀ i, start ≤ clock i) →
  let recent := recent_suspicious clock (suspicious_activity self) in
  let shown := (print_stats self result clock).2 in
  (length shown ≤ 5)%nat
  ∧ shown `suffix_of` recent
  ∧ shown `sublist_of` suspicious_activity self
  ∧ ((length recent ≤ 5)%nat → shown = recent)
  ∧ Forall (λ a, start - 5 * 60000000 < activity_timestamp a) shown.
Proof.
  intros Hclock recent shown. unfold shown, print_stats. cbn [snd]. fold recent.
  split_and!.
  - apply length_last_items.
  - apply suffix_drop.
  - etrans; [apply sublist_drop|apply recent_suspicious_sublist].
  - intros Hfew. unfold last_items.
    by replace (length recent - 5)%nat with 0%nat by lia.
  - pose proof (recent_suspicious_since clock (suspicious_activity self) start Hclock)
      as Hall. fold recent in Hall.
    rewrite Forall_forall in Hall |- *. intros a Ha. apply Hall.
    rewrite <- (take_drop (length recent - 5) recent). apply elem_of_app. by right.
Qed.

Lemma print_stats_shows_recent_witness :
  (print_stats seven_records no_stats (λ _, 800000000)).2
  = [multiple_connections "1.1.1.1" 4 700000000;
     multiple_connections "3.3.3.3" 6 700000000;
     multiple_connections "1.1.1.1" 7 730000000;
     frequent_connections "1.1.1.1" 11 730000000;
     multiple_connections "2.2.2.2" 4 760000000]
  ∧ Forall (λ a, 800000000 - 5 * 60000000 < activity_timestamp a)
      (print_stats seven_records no_stats (λ _, 800000000)).2.
Proof.
  split; [reflexivity|].
  apply (print_stats_shows_recent seven_records no_stats (λ _, 800000000) 800000000).
  intros _. lia.
Defined.

(** X23: the record added last is always shown by [print_stats] when it is
    less than five minutes old at the moment printing ends, and is then the
    last one shown. *)
Theorem print_stats_shows_latest (self : monitor) (result : stats)
    (clock : nat → Z) (finish : Z) (earlier : list activity) (latest : activity) :
  (∀ i, clock i ≤ finish) →
  suspicious_activity self = earlier ++ [latest] →
  finish - 5 * 60000000 < activity_timestamp latest →
  last (print_stats self result clock).2 = Some latest.
Proof.
  intros Hclock Hself Hfresh. unfold print_stats. cbn [snd].
  rewrite Hself, recent_suspicious_app. cbn [recent_suspicious].
  destruct (Z.ltb_spec (clock (length earlier + 0)%nat - 5 * 60000000)
              (activity_timestamp latest)) as [_|Hold].
  - unfold last_items. rewrite drop_app_le.
    + apply last_snoc.
    + rewrite length_app. simpl. lia.
  - specialize (Hclock (length earlier + 0)%nat). lia.
Qed.

Lemma print_stats_shows_latest_witness :
  last (print_stats seven_records no_stats (λ _, 800000000)).2
  = Some (multiple_connections "2.2.2.2" 4 760000000).
Proof.
  apply (print_stats_shows_latest seven_records no_stats (λ _, 800000000) 800000000
           [multiple_connections "1.1.1.1" 4 0;
            multiple_connections "2.2.2.2" 5 100000000;
            multiple_connections "1.1.1.1" 4 700000000;
            multiple_connections "3.3.3.3" 6 700000000;
            multiple_connections "1.1.1.1" 7 730000000;
            frequent_connections "1.1.1.1" 11 730000000]).
  - intros _. lia.
  - reflexivity.
  - simpl. lia.
Defined.
End MonitorReports.

(** * The user manager *)

Section ManageUsersFacts.
Import ManageUsers.

Lemma span_app (class : ascii → bool) (s : text) :
  (span class s).1 ++ (span class s).2 = s.
Proof.
  induction s as [|c s IH]; [done|]. cbn [span].
  destruct (class c); cbn [fst snd app]; [by rewrite IH|done].
Qed.

Lemma span_run (class : ascii → bool) (s : text) :
  Forall (λ c, class c = true) (span class s).1.
Proof.
  induction s as [|c s IH]; [constructor|]. cbn [span].
  destruct (class c) eqn:Hc; cbn [fst]; by constructor.
Qed.

Lemma span_rest (class : ascii → bool) (s : text) :
  (span class s).2 = [] ∨ ∃ c rest, (span class s).2 = c :: rest ∧ class c = false.
Proof.
  induction s as [|c s IH]; [by left|]. cbn [span].
  destruct (class c) eqn:Hc; cbn [snd]; [done|]. right. by exists c, s.
Qed.

Lemma span_exact (class : ascii → bool) (run rest : text) :
  Forall (λ c, class c = true) run →
  (rest = [] ∨ ∃ c rest', rest = c :: rest' ∧ class c = false) →
  span class (run ++ rest) = (run, rest).
Proof.
  intros Hrun Hrest. induction Hrun as [|c run Hc _ IH]; cbn [app].
  - destruct Hrest as [->|(c & rest' & -> & Hc)]; [done|].
    cbn [span]. by rewrite Hc.
  - cbn [span]. by rewrite Hc, IH.
Qed.

Lemma contains_spec (sub s : text) :
  contains sub s = true ↔ ∃ pre post, s = pre ++ sub ++ post.
Proof.
  induction s as [|c s IH]; cbn [contains]; rewrite orb_true_iff, bool_decide_eq_true.
  - split.
    + intros [[k ->]|?]; [|done]. by exists [], k.
    + intros (pre & post & Heq). left.
      symmetry in Heq. apply app_eq_nil in Heq as [_ Heq].
      apply app_eq_nil in Heq as [-> _]. done.
  - rewrite IH. split.
    + intros [[k ->]|(pre & post & ->)]; [by exists [], k|].
      by exists (c :: pre), post.
    + intros ([|c' pre] & post & Heq).
      * left. exists post. done.
      * right. injection Heq as -> ->. by exists pre, post.
Qed.

Lemma replace_from_skip (old new passed s : text) :
  replace_from old new (length passed) (passed ++ s) = replace_from old new 0 s.
Proof.
  induction passed as [|c passed IH]; [|done].
  cbn [length app]. by destruct s.
Qed.

Lemma replace_from_occurrence (old new post : text) :
  old ≠ [] →
  replace_from old new 0 (old ++ post) = new ++ replace_from old new 0 post.
Proof.
  destruct old as [|o old]; [done|]. intros _. cbn [app replace_from].
  rewrite bool_decide_eq_true_2 by (by exists post).
  replace (length (o :: old) - 1)%nat with (length old) by (cbn [length]; lia).
  by rewrite replace_from_skip.
Qed.

Lemma replace_from_first (old new pre post : text) :
  old ≠ [] →
  (∀ pre1 c pre2, pre = pre1 ++ c :: pre2 →
     ¬ (old `prefix_of` (c :: pre2 ++ old ++ post))) →
  replace_from old new 0 (pre ++ old ++ post)
  = pre ++ new ++ replace_from old new 0 post.
Proof.
  intros Hold. induction pre as [|c pre IH]; intros Hfirst.
  - cbn [app]. by apply replace_from_occurrence.
  - cbn [app replace_from].
    rewrite bool_decide_eq_false_2 by (by apply (Hfirst [] c pre)).
    f_equal. apply IH. intros pre1 c' pre2 ->.
    by apply (Hfirst (c :: pre1) c' pre2).
Qed.


Lemma replace_from_keeps (old extra s : text) :
  old ≠ [] → s `sublist_of` replace_from old (old ++ extra) 0 s.
Proof.
  intros Hold. remember (length s) as n eqn:Hn. revert s Hn.
  induction n as [n IH] using lt_wf_ind. intros s ->.
  destruct s as [|c s]; [done|].
  destruct (decide (old `prefix_of` c :: s)) as [[post Hpost]|Hno].
  - rewrite Hpost, replace_from_occurrence by done.
    rewrite <- (assoc_L (++)). apply sublist_app; [done|].
    etrans; [|apply sublist_inserts_l; reflexivity].
    apply (IH (length post)); [|done].
    rewrite Hpost, length_app. destruct old; [done|simpl; lia].
  - cbn [replace_from]. rewrite bool_decide_eq_false_2 by done.
    apply sublist_skip. apply (IH (length s)); [simpl; lia|done].
Qed.

Lemma users_section_cons (c : ascii) (rest : text) :
  users_section (c :: rest)
  = if bool_decide (chars "USERS = {" `prefix_of` c :: rest)
    then Some (chars "USERS = {"
               ++ (span (λ c, negb (bool_decide (c = closing_brace)))
                     (drop 9 (c :: rest))).1)
    else users_section rest.
Proof. done. Qed.

Lemma users_section_spec (content section : text) :
  users_section content = Some section →
  ∃ pre post,
    content = pre ++ section ++ post
    ∧ (chars "USERS = {" `prefix_of` section)
    ∧ (closing_brace ∉ drop 9 section)
    ∧ (post = [] ∨ ∃ post', post = closing_brace :: post')
    ∧ ∀ pre1 c pre2, pre = pre1 ++ c :: pre2 →
        ¬ (chars "USERS = {" `prefix_of` (c :: pre2 ++ section ++ post)).
Proof.
  induction content as [|c content IH]; [done|]. rewrite users_section_cons.
  case_bool_decide as Hprefix.
  - destruct Hprefix as [k Hk]. rewrite Hk.
    change (drop 9 (chars "USERS = {" ++ k)) with k.
    set (class := λ c, negb (bool_decide (c = closing_brace))).
    intros Heq. apply (inj Some) in Heq. subst section.
    exists [], (span class k).2. split_and!.
    + rewrite app_nil_l, <- (assoc_L (++)). by rewrite span_app.
    + by eexists.
    + change (drop 9 (chars "USERS = {" ++ (span class k).1))
        with (span class k).1.
      intros Hin. pose proof (span_run class k) as Hrun.
      rewrite Forall_forall in Hrun. apply Hrun in Hin.
      unfold class in Hin. by rewrite bool_decide_eq_true_2 in Hin.
    + destruct (span_rest class k) as [?|(c' & rest & -> & Hc')]; [by left|].
      right. exists rest. f_equal. unfold class in Hc'.
      apply negb_false_iff, bool_decide_eq_true in Hc'. done.
    + by intros [] ? ? ?.
  - intros Hsection. destruct (IH Hsection) as (pre & post & -> & ? & ? & ? & Hfirst).
    exists (c :: pre), post. split_and!; try done.
    intros [|c1 pre1] c' pre2 Heq.
    + injection Heq as <- <-. done.
    + injection Heq as <- ->. by apply (Hfirst pre1 c' pre2).
Qed.

Lemma valid_username_spec (username : text) :
  valid_username username = true
  ↔ ∃ name, name ≠ [] ∧ Forall (λ c, word_char c = true) name
            ∧ (username = name ∨ username = name ++ [newline]).
Proof.
  unfold valid_username. cbn zeta.
  rewrite andb_true_iff, orb_true_iff, !bool_decide_eq_true. split.
  - intros [Hname Hrest]. exists (span word_char username).1.
    split; [done|]. split; [apply span_run|].
    rewrite <- (span_app word_char username) at 1 3.
    destruct Hrest as [->| ->]; [left; by rewrite app_nil_r|by right].
  - intros (name & Hname & Hword & [->| ->]).
    + rewrite <- (app_nil_r name), span_exact by (done || by left). by split; [|left].
    + rewrite span_exact; [by split; [|right]|done|].
      right. by exists newline, [].
Qed.
End ManageUsersFacts.

(** A character that is not in a list written out. *)
Ltac not_in_literal :=
  let H := fresh in
  let H' := fresh in
  intros H; pose proof (bool_decide_eq_true_2 _ H) as H';
  vm_compute in H'; discriminate.

Section ManageUsersFiles.
Import ManageUsers.

Lemma read_config_no_cr (file : text) : carriage_return ∉ read_config file.
Proof.
  remember (length file) as n eqn:Hn. revert file Hn.
  induction n as [n IH] using lt_wf_ind. intros file ->.
  destruct file as [|c rest]; [apply not_elem_of_nil|]. cbn [read_config].
  case_bool_decide as Hc.
  - apply not_elem_of_cons. split; [done|].
    destruct rest as [|c' rest']; [apply not_elem_of_nil|].
    case_bool_decide.
    + apply (IH (length rest')); [simpl; lia|done].
    + apply (IH (length (c' :: rest'))); [simpl; lia|done].
  - apply not_elem_of_cons. split; [congruence|].
    apply (IH (length rest)); [simpl; lia|done].
Qed.


Lemma write_config_app (os : platform) (content1 content2 : text) :
  write_config os (content1 ++ content2)
  = write_config os content1 ++ write_config os content2.
Proof. apply flat_map_app. Qed.

Lemma write_config_posix (content : text) : write_config posix content = content.
Proof.
  induction content as [|c content IH]; [done|].
  cbn [write_config flat_map]. fold (write_config posix content). rewrite IH.
  by case_bool_decide as Hc; [rewrite Hc|].
Qed.

Lemma read_write_prefix (os : platform) (content rest : text) :
  carriage_return ∉ content →
  read_config (write_config os content ++ rest) = content ++ read_config rest.
Proof.
  induction content as [|c content IH]; [done|].
  rewrite not_elem_of_cons. intros [Hc Hrest].
  cbn [write_config flat_map]. fold (write_config os content).
  rewrite <- (assoc_L (++)). case_bool_decide as Hnl.
  - rewrite Hnl. destruct os; cbn [linesep app read_config].
    + rewrite bool_decide_eq_false_2 by done. by rewrite IH.
    + rewrite !bool_decide_eq_true_2 by done. by rewrite IH.
  - cbn [app read_config]. rewrite bool_decide_eq_false_2 by congruence.
    by rewrite IH.
Qed.



Lemma valid_username_no_cr (username : text) :
  valid_username username = true → carriage_return ∉ username.
Proof.
  intros (name & _ & Hword & Hshape)%valid_username_spec Hin.
  rewrite Forall_forall in Hword.
  destruct Hshape as [->| ->].
  - by apply Hword in Hin.
  - apply elem_of_app in Hin as [Hin|Hin]; [by apply Hword in Hin|].
    by apply list_elem_of_singleton in Hin.
Qed.

Lemma user_key_no_cr (username : text) :
  carriage_return ∉ username → carriage_return ∉ user_key username.
Proof.
  intros Hname. unfold user_key. rewrite !not_elem_of_app.
  split_and!; try done; not_in_literal.
Qed.

End ManageUsersFiles.

Section ManageUsersProperties.
Import ManageUsers.

Lemma replace_users_section (content section extra : text) :
  users_section content = Some section →
  ∃ pre post,
    content = pre ++ section ++ post
    ∧ (post = [] ∨ ∃ post', post = closing_brace :: post')
    ∧ replace section (section ++ extra) content
      = pre ++ section ++ extra ++ replace section (section ++ extra) post
    ∧ post `sublist_of` replace section (section ++ extra) post
    ∧ (∀ post', post = closing_brace :: post' →
         ∃ rest', replace section (section ++ extra) post = closing_brace :: rest').
Proof.
  intros Hsection.
  destruct (users_section_spec _ _ Hsection)
    as (pre & post & -> & [body Hbody] & _ & Hpost & Hfirst).
  assert (section ≠ []) as Hne by (by rewrite Hbody).
  exists pre, post. split_and!; [done|done| | |].
  - unfold replace. rewrite replace_from_first, <- (assoc_L (++)); [done|done|].
    intros pre1 c pre2 Hpre Hprefix. apply (Hfirst pre1 c pre2 Hpre).
    etrans; [|exact Hprefix]. by exists body.
  - by apply replace_from_keeps.
  - intros post' ->. unfold replace. cbn [replace_from].
    rewrite bool_decide_eq_false_2; [by eexists|].
    rewrite Hbody. by intros [k Hk].
Qed.

Lemma add_user_returned (os : platform) (username secret file : text) :
  returned (add_user os username secret file) = true →
  valid_username username = true
  ∧ contains (user_key username) (read_config file) = false
  ∧ ∃ section,
      users_section (read_config file) = Some section
      ∧ config (add_user os username secret file)
        = write_config os
            (replace section (section ++ [newline] ++ new_entry username secret)
               (read_config file)).
Proof.
  unfold add_user.
  destruct (valid_username username); [|done]. cbn [negb]. cbn zeta.
  destruct (contains (user_key username) (read_config file)); [done|].
  destruct (users_section (read_config file)) as [section|]; [|done].
  intros _. split_and!; [done|done|]. by exists section.
Qed.

Lemma add_user_written (os : platform) (username secret file : text) :
  returned (add_user os username secret file) = true →
  ∃ pre section post rest,
    users_section (read_config file) = Some section
    ∧ read_config file = pre ++ section ++ post
    ∧ (post = [] ∨ ∃ post', post = closing_brace :: post')
    ∧ config (add_user os username secret file)
      = write_config os
          (pre ++ section ++ [newline] ++ new_entry username secret ++ rest)
    ∧ rest = replace section (section ++ [newline] ++ new_entry username secret) post
    ∧ post `sublist_of` rest
    ∧ (∀ post', post = closing_brace :: post' → ∃ rest', rest = closing_brace :: rest').
Proof.
  intros Hreturned.
  destruct (add_user_returned _ _ _ _ Hreturned) as (_ & _ & section & Hsection & ->).
  destruct (replace_users_section (read_config file) section
              ([newline] ++ new_entry username secret) Hsection)
    as (pre & post & Hcontent & Hpost & Hreplace & Hkeeps & Hbrace).
  exists pre, section, post, (replace section
    (section ++ [newline] ++ new_entry username secret) post).
  split_and!; try done. by rewrite Hreplace, <- !(assoc_L (++)).
Qed.

(** X24: [add_user] goes past its check of the name exactly for the names
    made of one or more letters, digits, underscores and dashes, with or
    without one newline behind them; so a name that is let through holds
    no quote, no closing brace and no space. *)
Theorem add_user_accepted_names (os : platform) (username secret file : text) :
  (printed (add_user os username secret file) ≠ invalid_characters
   ↔ ∃ name, name ≠ [] ∧ Forall (λ c, word_char c = true) name
             ∧ (username = name ∨ username = name ++ [newline]))
  ∧ (printed (add_user os username secret file) ≠ invalid_characters →
     (quote ∉ username) ∧ (closing_brace ∉ username) ∧ (" "%char ∉ username)).
Proof.
  assert (printed (add_user os username secret file) ≠ invalid_characters
          ↔ valid_username username = true) as Hvalid.
  { unfold add_user. destruct (valid_username username); cbn [negb]; cbn zeta.
    - destruct (contains _ (read_config file)); [done|].
      by destruct (users_section (read_config file)).
    - cbn [printed]. split; [done|]. done. }
  rewrite Hvalid, valid_username_spec. split; [done|].
  intros (name & _ & Hword & Hshape).
  assert (∀ c, word_char c = false → c ≠ newline → c ∉ username) as Hnot.
  { intros c Hc Hnl Hin. rewrite Forall_forall in Hword.
    destruct Hshape as [->| ->].
    - apply Hword in Hin. congruence.
    - apply elem_of_app in Hin as [Hin|Hin].
      + apply Hword in Hin. congruence.
      + by apply list_elem_of_singleton in Hin. }
  split_and!; by apply Hnot.
Qed.

(** X25: after [add_user] has returned True the configuration file, as
    [read_config] reads it, holds the quoted name followed by a colon (on a
    POSIX platform the file itself does), so that adding the same name once
    more, whatever the secret and the platform, is refused as already
    existing and leaves the file as it is. *)
Theorem add_user_then_exists (os : platform) (username secret file : text) :
  returned (add_user os username secret file) = true →
  let after := config (add_user os username secret file) in
  contains (user_key username) (read_config after) = true
  ∧ (os = posix → contains (user_key username) after = true)
  ∧ ∀ os' secret',
      add_user os' username secret' after
      = {| returned := false; config := after; printed := already_exists |}.
Proof.
  intros Hreturned after.
  destruct (add_user_returned _ _ _ _ Hreturned) as (Hvalid & _ & _).
  destruct (add_user_written _ _ _ _ Hreturned)
    as (pre & section & post & rest & _ & Hcontent & _ & Hafter & _).
  pose proof (read_config_no_cr file) as Hcr. rewrite Hcontent in Hcr.
  apply not_elem_of_app in Hcr as [Hpre Hcr].
  apply not_elem_of_app in Hcr as [Hsection _].
  pose proof (valid_username_no_cr _ Hvalid) as Hname.
  set (front := pre ++ section ++ [newline] ++ chars "    ").
  set (back := chars " " ++ [quote] ++ secret ++ [quote] ++ chars "," ++ rest).
  assert (pre ++ section ++ [newline] ++ new_entry username secret ++ rest
          = (front ++ user_key username) ++ back) as Hsplit.
  { unfold front, back, new_entry, user_key.
    change (chars ": ") with (chars ":" ++ chars " ").
    by rewrite <- !(assoc_L (++)). }
  assert (carriage_return ∉ front ++ user_key username) as Hfront.
  { unfold front. rewrite !not_elem_of_app.
    split_and!; try done; try not_in_literal.
    by apply user_key_no_cr. }
  assert (contains (user_key username) (read_config after) = true) as Hcontains.
  { unfold after. rewrite Hafter, Hsplit, write_config_app, read_write_prefix by done.
    apply contains_spec. exists front. eexists. by rewrite <- (assoc_L (++)). }
  split; [done|]. split.
  - intros ->. unfold after. rewrite Hafter, write_config_posix, Hsplit.
    apply contains_spec. exists front, back. by rewrite <- (assoc_L (++)).
  - intros os' secret'. unfold add_user.
    rewrite Hvalid. cbn [negb]. cbn zeta. by rewrite Hcontains.
Qed.

Lemma add_user_then_exists_witness :
  contains (user_key (chars "alice"))
    (read_config
       (config (add_user posix (chars "alice") sample_secret sample_config)))
  = true
  ∧ (posix = posix →
     contains (user_key (chars "alice"))
       (config (add_user posix (chars "alice") sample_secret sample_config))
     = true)
  ∧ ∀ os' secret',
      add_user os' (chars "alice") secret'
        (config (add_user posix (chars "alice") sample_secret sample_config))
      = {| returned := false;
           config :=
             config (add_user posix (chars "alice") sample_secret sample_config);
           printed := already_exists |}.
Proof.
  apply (add_user_then_exists posix (chars "alice") sample_secret sample_config).
  vm_compute. reflexivity.
Defined.


End ManageUsersProperties.
